(** * libbitcoin-blockchain: the fork segment and the organizer

    A shallow embedding of [blockchain::fork] (validation/fork.hpp, fork.cpp)
    and of the organize sequence of [blockchain::organizer] (organizer.cpp),
    followed by the properties of the two that the design document states.

    Fixed-width integers are integers of [Z] with their range written out:
    [size_t] is taken at 64 bits, [uint32_t] at 32 and [uint256_t] at 256.
    Checked arithmetic ([safe_add], [safe_subtract]) either returns or throws;
    a function that can throw returns a [result]. *)

From Stdlib Require Import ZArith List Bool Lia.
Import ListNotations.
Open Scope Z_scope.

(** ** Machine integers and checked arithmetic *)

Definition max_size_t : Z := 2 ^ 64 - 1.
Definition min_size_t : Z := 0.
Definition max_uint32 : Z := 2 ^ 32 - 1.
Definition max_uint64 : Z := 2 ^ 64 - 1.

(** Unchecked [size_t] arithmetic wraps around. *)
Definition wrap_size_t (x : Z) : Z := x mod 2 ^ 64.

(** [uint256_t] is an unchecked 256-bit unsigned number: it wraps as well. *)
Definition wrap_uint256 (x : Z) : Z := x mod 2 ^ 256.

Definition is_size_t (x : Z) : Prop := 0 <= x <= max_size_t.

Inductive exception : Type :=
| overflow_error
| underflow_error.

Inductive result (A : Type) : Type :=
| Returns (a : A)
| Throws (e : exception).

Arguments Returns {A} a.
Arguments Throws {A} e.

Definition bind {A B : Type} (r : result A) (k : A -> result B) : result B :=
  match r with
  | Returns a => k a
  | Throws e => Throws e
  end.

Notation "x <- r ;; k" := (bind r (fun x => k))
  (at level 61, r at next level, right associativity).

(** Modelled from the spec: [safe_add], the checked addition of the libbitcoin
    base library (bitcoin/bitcoin.hpp, not among these sources), which the
    spec calls "checked addition": it throws when the sum leaves the type. *)
Definition safe_add (left right : Z) : result Z :=
  if left >? max_size_t - right then Throws overflow_error
  else Returns (left + right).

(** Modelled from the spec: [safe_subtract], the checked subtraction of the
    same library ("must use saturating/checked subtraction to avoid
    underflow"): it throws when the difference would be below the minimum. *)
Definition safe_subtract (left right : Z) : result Z :=
  if left <? min_size_t + right then Throws underflow_error
  else Returns (left - right).

(** ** Chain types consumed by the fork *)

Module Chain.

(** A 256-bit digest read as a number; [null_hash] is the all-zero digest. *)
Definition hash_digest : Type := Z.
Definition null_hash : hash_digest := 0.

(** Modelled from the spec: [chain::output] of the base library. Its
    default-constructed value is the spec's "invalid-output": the value
    field holds the [not_found] sentinel, and an output is valid unless it
    holds that sentinel. *)
Record output : Type := {
  value : Z;
  script : list Z
}.

Definition not_found : Z := max_uint64.

Definition output_default : output := {| value := not_found; script := [] |}.

Definition is_valid (o : output) : bool := negb (value o =? not_found).

(** [output_point::validation_type]: the per-prevout validation slots. *)
Record validation_type : Type := {
  spent : bool;
  confirmed : bool;
  height : Z;
  cache : output
}.

Definition not_specified : Z := max_size_t.

Definition validation_default : validation_type :=
  {| spent := false; confirmed := false;
     height := not_specified; cache := output_default |}.

(** Modelled from the spec: [chain::output_point], "a reference
    (tx_hash, output_index) to a specific transaction output", with its
    validation slots. Two points are equal when hash and index are; the
    null point has the null hash and the maximal index. *)
Record output_point : Type := {
  point_hash : hash_digest;
  point_index : Z;
  validation : validation_type
}.

Definition null_index : Z := max_uint32.

Definition point_eqb (a b : output_point) : bool :=
  (point_hash a =? point_hash b) && (point_index a =? point_index b).

Definition is_null (p : output_point) : bool :=
  (point_index p =? null_index) && (point_hash p =? null_hash).

Record input : Type := {
  previous_output : output_point;
  input_script : list Z;
  sequence : Z
}.

(** A transaction with its computed hash. *)
Record transaction : Type := {
  tx_hash : hash_digest;
  inputs : list input;
  outputs : list output
}.

(** A header with its computed hash. *)
Record header : Type := {
  version : Z;
  previous_block_hash : hash_digest;
  merkle : hash_digest;
  timestamp : Z;
  bits : Z;
  nonce : Z;
  header_hash : hash_digest
}.

Record block : Type := {
  block_header : header;
  transactions : list transaction
}.

(** [block->hash()] is the hash of the header. *)
Definition block_hash (b : block) : hash_digest := header_hash (block_header b).

(** The target a compact [bits] value declares; [None] when the encoding is
    negative or the target does not fit 256 bits. *)
Definition compact_target (compact : Z) : option Z :=
  let exponent := Z.shiftr compact 24 in
  let mantissa := Z.land compact 0x007fffff in
  if Z.testbit compact 23 then None
  else if mantissa =? 0 then Some 0
  else if exponent <=? 3 then Some (Z.shiftr mantissa (8 * (3 - exponent)))
  else
    let target := Z.shiftl mantissa (8 * (exponent - 3)) in
    if target <? 2 ^ 256 then Some target else None.

(** Modelled from the spec: [block::difficulty] of the base library, the
    "claimed work": "the work implied by a header's bits field (its
    consensus-declared target)", that is 2^256 / (target + 1) computed in
    [uint256_t] as (~target / (target + 1)) + 1, and 0 for an overflowed
    encoding. *)
Definition work_of_bits (compact : Z) : Z :=
  match compact_target compact with
  | None => 0
  | Some target =>
      let divisor := wrap_uint256 (target + 1) in
      if divisor =? 0 then 0
      else wrap_uint256 ((2 ^ 256 - 1 - target) / divisor + 1)
  end.

Definition block_difficulty (b : block) : Z := work_of_bits (bits (block_header b)).

End Chain.

Import Chain.

(** ** The fork (validation/fork.cpp) *)

Module Fork.

(** The private members: the height of the fork point and the block list,
    front first. *)
Record fork : Type := {
  height_ : Z;
  blocks_ : list block
}.

(** [fork::fork()] *)
Definition new : fork := {| height_ := 0; blocks_ := [] |}.

(** [fork::set_height] *)
Definition set_height (f : fork) (h : Z) : fork :=
  {| height_ := h; blocks_ := blocks_ f |}.

(** [fork::empty] *)
Definition empty (f : fork) : bool :=
  match blocks_ f with
  | [] => true
  | _ :: _ => false
  end.

(** [fork::size] *)
Definition size (f : fork) : Z := Z.of_nat (length (blocks_ f)).

(** [fork::height] *)
Definition height (f : fork) : Z := height_ f.

(** [fork::blocks] *)
Definition blocks (f : fork) : list block := blocks_ f.

(** [fork::push_front]: the result and the fork afterwards. The [linked]
    test reads the front block and is evaluated only when the fork is not
    empty. *)
Definition push_front (f : fork) (b : block) : bool * fork :=
  match blocks_ f with
  | [] => (true, {| height_ := height_ f; blocks_ := [b] |})
  | front :: _ =>
      if previous_block_hash (block_header front) =? block_hash b
      then (true, {| height_ := height_ f; blocks_ := b :: blocks_ f |})
      else (false, f)
  end.

(** [blocks_->back()], [None] when there is none. *)
Fixpoint back (l : list block) : option block :=
  match l with
  | [] => None
  | [b] => Some b
  | _ :: rest => back rest
  end.

(** [fork::top]: the back of the list, [None] for the null pointer. *)
Definition top (f : fork) : option block :=
  if empty f then None else back (blocks_ f).

(** [fork::top_height]: the addition is unchecked. *)
Definition top_height (f : fork) : Z :=
  if empty f then 0 else wrap_size_t (height_ f + size f).

(** [fork::hash] *)
Definition hash (f : fork) : hash_digest :=
  match blocks_ f with
  | [] => null_hash
  | front :: _ => previous_block_hash (block_header front)
  end.

(** [fork::index_of]: "the caller must ensure that the height is above the
    fork". *)
Definition index_of (f : fork) (height : Z) : result Z :=
  d <- safe_subtract height (height_ f) ;;
  safe_subtract d 1.

(** [fork::height_at]: "index is unguarded, caller must verify". *)
Definition height_at (f : fork) (index : Z) : result Z :=
  s <- safe_add (height_ f) index ;;
  safe_add s 1.

(** [fork::block_at]: [None] for the null pointer. *)
Definition block_at (f : fork) (index : Z) : option block :=
  if index <? size f then nth_error (blocks_ f) (Z.to_nat index) else None.

(** [fork::difficulty]: a 256-bit total, from zero, over the blocks in
    order. *)
Definition difficulty (f : fork) : Z :=
  fold_left (fun total block => wrap_uint256 (total + block_difficulty block))
            (blocks_ f) 0.

(** [std::count_if] *)
Definition count_if {A : Type} (p : A -> bool) (l : list A) : Z :=
  Z.of_nat (length (filter p l)).

(** [fork::populate_tx]: the value written to [tx.validation.duplicate].
    The assertion on the count is compiled out of release builds and is
    kept apart as [populate_tx_asserted]. *)
Definition populate_tx_count (f : fork) (tx : transaction) : Z :=
  let outer := fun (total : Z) (block : block) =>
    let hashes := fun block_tx => tx_hash block_tx =? tx_hash tx in
    wrap_size_t (total + count_if hashes (transactions block)) in
  fold_left outer (blocks_ f) 0.

Definition populate_tx_asserted (f : fork) (tx : transaction) : bool :=
  populate_tx_count f tx >? 0.

Definition populate_tx (f : fork) (tx : transaction) : bool :=
  populate_tx_count f tx >? 1.

(** [fork::populate_spent]: the lambdas [points], [inner] and [outer] and
    the two accumulations as written; the inner accumulation of [outer]
    starts from [total] and its result is added to [total]. *)
Definition points (outpoint : output_point) (i : input) : bool :=
  point_eqb (previous_output i) outpoint.

Definition inner (outpoint : output_point) (sum : Z) (tx : transaction) : Z :=
  wrap_size_t (sum + count_if (points outpoint) (inputs tx)).

Definition outer (outpoint : output_point) (total : Z) (block : block) : Z :=
  wrap_size_t (total + fold_left (inner outpoint) (transactions block) total).

Definition populate_spent_count (f : fork) (outpoint : output_point) : Z :=
  fold_left (outer outpoint) (blocks_ f) 0.

(** [BITCOIN_ASSERT(spent > 0)], compiled out of release builds. *)
Definition populate_spent_asserted (f : fork) (outpoint : output_point) : bool :=
  populate_spent_count f outpoint >? 0.

(** The validation slots of the outpoint after [populate_spent]. *)
Definition populate_spent (f : fork) (outpoint : output_point) : validation_type :=
  let prevout := validation outpoint in
  let spent' := populate_spent_count f outpoint >? 1 in
  {| spent := spent'; confirmed := spent';
     Chain.height := Chain.height prevout; cache := cache prevout |}.

(** [fork::populate_prevout]. The local [struct result]: *)
Record found : Type := {
  found_height : Z;
  found_position : Z;
  found_out : output
}.

(** [return{}]: value-initialised members. *)
Definition found_default : found :=
  {| found_height := 0; found_position := 0; found_out := output_default |}.

(** The test of the inner loop of [get_output]. *)
Definition matches (outpoint : output_point) (tx : transaction) : bool :=
  (point_hash outpoint =? tx_hash tx) &&
  (point_index outpoint <? Z.of_nat (length (outputs tx))).

(** The inner loop, from [position] on: the position of the first
    transaction that matches and [tx.outputs()[outpoint.index()]]. *)
Fixpoint scan_transactions (outpoint : output_point) (txs : list transaction)
    (position : Z) : option (Z * output) :=
  match txs with
  | [] => None
  | tx :: rest =>
      if matches outpoint tx
      then Some (position,
                 nth (Z.to_nat (point_index outpoint)) (outputs tx) output_default)
      else scan_transactions outpoint rest (position + 1)
  end.

(** The outer loop of [get_output]: [forward] runs from 0 up to [count];
    [remaining] is [count - forward], so that [index = count - forward - 1]
    runs from [count - 1] down to 0. The block at [index] is dereferenced
    unchecked; it is there for every index the loop visits
    ([loop_block_present]). *)
Fixpoint get_output_loop (f : fork) (outpoint : output_point) (count : Z)
    (remaining : nat) : result found :=
  match remaining with
  | O => Returns found_default
  | S remaining' =>
      let forward := count - Z.of_nat remaining in
      let index := count - forward - 1 in
      match block_at f index with
      | None => Returns found_default
      | Some block =>
          match scan_transactions outpoint (transactions block) 0 with
          | Some (position, out) =>
              h <- height_at f index ;;
              Returns {| found_height := h; found_position := position;
                         found_out := out |}
          | None => get_output_loop f outpoint count remaining'
          end
      end
  end.

Definition get_output (f : fork) (outpoint : output_point) : result found :=
  get_output_loop f outpoint (size f) (length (blocks_ f)).

(** The validation slots of the outpoint after [populate_prevout], and the
    exception when the call leaves by one: the two slots are reset before
    the search starts. *)
Definition populate_prevout (f : fork) (outpoint : output_point)
    : validation_type * option exception :=
  let prevout := validation outpoint in
  let reset :=
    {| spent := spent prevout; confirmed := confirmed prevout;
       Chain.height := not_specified; cache := output_default |} in
  if is_null outpoint then (reset, None)
  else
    match get_output f outpoint with
    | Throws e => (reset, Some e)
    | Returns finder =>
        if negb (is_valid (found_out finder)) then (reset, None)
        else
          let cached :=
            {| spent := spent reset; confirmed := confirmed reset;
               Chain.height := Chain.height reset; cache := found_out finder |} in
          if found_position finder =? 0
          then ({| spent := spent cached; confirmed := confirmed cached;
                   Chain.height := found_height finder; cache := cache cached |},
                None)
          else (cached, None)
    end.

(** The four header queries: the returned flag and the [out] argument
    afterwards, which is written only on success. *)
Definition get_bits (f : fork) (out_bits : Z) (height : Z) : result (bool * Z) :=
  if height <=? height_ f then Returns (false, out_bits)
  else
    index <- index_of f height ;;
    match block_at f index with
    | None => Returns (false, out_bits)
    | Some block => Returns (true, bits (block_header block))
    end.

Definition get_version (f : fork) (out_version : Z) (height : Z)
    : result (bool * Z) :=
  if height <=? height_ f then Returns (false, out_version)
  else
    index <- index_of f height ;;
    match block_at f index with
    | None => Returns (false, out_version)
    | Some block => Returns (true, version (block_header block))
    end.

Definition get_timestamp (f : fork) (out_timestamp : Z) (height : Z)
    : result (bool * Z) :=
  if height <=? height_ f then Returns (false, out_timestamp)
  else
    index <- index_of f height ;;
    match block_at f index with
    | None => Returns (false, out_timestamp)
    | Some block => Returns (true, timestamp (block_header block))
    end.

Definition get_block_hash (f : fork) (out_hash : hash_digest) (height : Z)
    : result (bool * hash_digest) :=
  if height <=? height_ f then Returns (false, out_hash)
  else
    index <- index_of f height ;;
    match block_at f index with
    | None => Returns (false, out_hash)
    | Some block => Returns (true, block_hash block)
    end.

End Fork.

Import Fork.

(** ** The organizer (pools/organizer.cpp)

    The organize sequence is a chain of continuations: [organize] hands the
    fork to the validator with [handle_accept] bound as the handler, which
    hands it on with [handle_connect], which hands it to the store with
    [handle_reorganized]. Each function below is the C++ function of the same
    name; what it does to its collaborators (validator, block pool, store,
    subscriber and the caller's handler) is the list of [event]s it returns,
    in order, and what the collaborators answer is read from a record of
    [collaborators]. The mutex and the thread pools are outside the model. *)

Module Organizer.

(** The error codes the sequence names, and any other code of the
    validator or the store. *)
Inductive code : Type :=
| success
| service_stopped
| duplicate_block
| orphan_block
| insufficient_work
| operation_failed
| other_error (n : nat).

(** [if (ec)]: a code converts to true unless it is [success]. *)
Definition is_error (ec : code) : bool :=
  match ec with
  | success => false
  | _ => true
  end.

Record settings : Type := {
  cores : Z;
  priority : bool;
  flush_reorganizations : bool
}.

(** The members the sequence reads. *)
Record organizer : Type := {
  stopped_ : bool;
  flush_reorganizations_ : bool
}.

Inductive event : Type :=
| validator_check (b : block)
| validator_accept (f : fork)
| validator_connect (f : fork)
| validator_stop
| pool_get_path (b : block)
| pool_add (b : option block)
| pool_add_list (bs : list block)
| pool_remove (bs : list block)
| pool_prune (top_height : Z)
| chain_get_block_exists (h : hash_digest)
| chain_get_height (h : hash_digest)
| chain_get_fork_difficulty (maximum first_height : Z)
| chain_reorganize (f : fork) (flush : bool)
| chain_begin_writes
| chain_end_writes
| subscriber_start
| subscriber_stop
| subscriber_invoke (ec : code) (fork_height : Z) (incoming outgoing : list block)
| set_top_validation (top : block) (height : Z) (ec : code)
| log_fatal (ec : code)
| null_dereference
| raise (e : exception)
| reply (ec : code).

Definition trace : Type := list event.

(** A [result_handler]. *)
Definition result_handler : Type := code -> trace.

(** The handler of a caller that only records the code it is given. *)
Definition replying : result_handler := fun ec => [reply ec].

(** The answers of the collaborators. [at_accept] and [at_connect] give the
    organizer as [handle_accept] and [handle_connect] find it. Both stages
    read the stopped flag again, and the model lets what they read be
    anything. That covers more than the program does: [stop] sets the flag
    only once it has the mutex, which a sequence keeps until it completes;
    what is proved for every pair of hooks holds in particular when they
    change nothing. *)
Record collaborators : Type := {
  check : block -> code;
  accept : fork -> code;
  connect : fork -> code;
  get_path : block -> fork;
  get_block_exists : hash_digest -> bool;
  get_height : hash_digest -> option Z;
  get_fork_difficulty : Z -> Z -> option Z;
  reorganize : fork -> bool -> code * list block;
  begin_writes : bool;
  end_writes : bool;
  at_accept : organizer -> organizer;
  at_connect : organizer -> organizer
}.

(** [organizer::organizer] *)
Definition new (s : settings) : organizer :=
  {| stopped_ := true; flush_reorganizations_ := flush_reorganizations s |}.

(** [organizer::stopped] *)
Definition stopped (this : organizer) : bool := stopped_ this.

(** [organizer::start]: the organizer afterwards, the calls and the result. *)
Definition start (env : collaborators) (this : organizer)
    : organizer * trace * bool :=
  let this' := {| stopped_ := false;
                  flush_reorganizations_ := flush_reorganizations_ this |} in
  if flush_reorganizations_ this
  then (this', [subscriber_start], true)
  else (this', [subscriber_start; chain_begin_writes], begin_writes env).

(** [organizer::stop] *)
Definition stop (env : collaborators) (this : organizer)
    : organizer * trace * bool :=
  let this' := {| stopped_ := true;
                  flush_reorganizations_ := flush_reorganizations_ this |} in
  let calls := [validator_stop; subscriber_stop;
                subscriber_invoke service_stopped 0 [] []] in
  if flush_reorganizations_ this
  then (this', calls, true)
  else (this', calls ++ [chain_end_writes], end_writes env).

(** [organizer::complete]: the end of the organize sequence. *)
Definition complete (handler : result_handler) (ec : code) : trace :=
  handler ec.

(** [organizer::notify_reorganize] *)
Definition notify_reorganize (fork_height : Z) (f original : list block) : trace :=
  [subscriber_invoke success fork_height f original].

(** [organizer::set_fork_height]: the call to the store, then the result
    and the fork afterwards, or the exception of the overflow guard. *)
Definition set_fork_height (env : collaborators) (f : fork)
    : trace * result (bool * fork) :=
  ([chain_get_height (Fork.hash f)],
   match get_height env (Fork.hash f) with
   | None => Returns (false, f)
   | Some height =>
       _ <- safe_add height (size f) ;;
       Returns (true, set_height f height)
   end).

(** [organizer::handle_reorganized] *)
Definition handle_reorganized (ec : code) (f : fork) (outgoing : list block)
    (handler : result_handler) : trace :=
  if is_error ec then log_fatal ec :: handler ec
  else
    pool_remove (blocks f) ::
    pool_prune (top_height f) ::
    pool_add_list outgoing ::
    notify_reorganize (Fork.height f) (blocks f) outgoing ++
    handler success.

(** [organizer::handle_connect] *)
Definition handle_connect (env : collaborators) (this : organizer) (ec : code)
    (f : fork) (handler : result_handler) : trace :=
  if stopped this then handler service_stopped
  else if is_error ec then handler ec
  else
    let first_height := wrap_size_t (Fork.height f + 1) in
    let maximum := difficulty f in
    chain_get_fork_difficulty maximum first_height ::
    match get_fork_difficulty env maximum first_height with
    | None => handler operation_failed
    | Some threshold =>
        if difficulty f <=? threshold
        then pool_add (top f) :: handler insufficient_work
        else
          match top f with
          | None => [null_dereference]
          | Some top =>
              set_top_validation top (top_height f) success ::
              chain_reorganize f (flush_reorganizations_ this) ::
              let (ec', outgoing) :=
                reorganize env f (flush_reorganizations_ this) in
              handle_reorganized ec' f outgoing handler
          end
    end.

(** [organizer::handle_accept] *)
Definition handle_accept (env : collaborators) (this : organizer) (ec : code)
    (f : fork) (handler : result_handler) : trace :=
  if stopped this then handler service_stopped
  else if is_error ec then handler ec
  else
    validator_connect f ::
    handle_connect env (at_connect env this) (connect env f) f handler.

(** [organizer::organize] *)
Definition organize (env : collaborators) (this : organizer) (b : block)
    (handler : result_handler) : trace :=
  if stopped this then handler service_stopped
  else
    validator_check b ::
    let ec := check env b in
    if is_error ec then handler ec
    else
      let locked_handler := complete handler in
      pool_get_path b ::
      let f := get_path env b in
      if empty f then locked_handler duplicate_block
      else
        chain_get_block_exists (block_hash b) ::
        if get_block_exists env (block_hash b)
        then locked_handler duplicate_block
        else
          match set_fork_height env f with
          | (calls, Throws e) => calls ++ [raise e]
          | (calls, Returns (false, _)) => calls ++ locked_handler orphan_block
          | (calls, Returns (true, f')) =>
              calls ++
              validator_accept f' ::
              handle_accept env (at_accept env this) (accept env f') f'
                            locked_handler
          end.

(** The events after which the sequence has gone past the duplicate test:
    the anchor lookup, the two validations, the work query and everything
    of the reorganization. *)
Definition proceeds (e : event) : bool :=
  match e with
  | chain_get_height _ | validator_accept _ | validator_connect _
  | chain_get_fork_difficulty _ _ | chain_reorganize _ _
  | set_top_validation _ _ _ | pool_add _ | pool_add_list _
  | pool_remove _ | pool_prune _ | subscriber_invoke _ _ _ _ => true
  | _ => false
  end.

Definition is_reorganize (e : event) : bool :=
  match e with
  | chain_reorganize _ _ => true
  | _ => false
  end.

(** The codes the caller's handler was given, in order. *)
Fixpoint replies (t : trace) : list code :=
  match t with
  | [] => []
  | reply ec :: rest => ec :: replies rest
  | _ :: rest => replies rest
  end.

End Organizer.

(** ** What the design document counts

    The quantities the document states the fork's queries in, written from
    its words, to be compared with what the code computes. *)

Module Stated.

Definition sum (l : list Z) : Z := fold_right Z.add 0 l.

(** "Sum of each block's claimed work". *)
Definition claimed_work (f : fork) : Z :=
  sum (map block_difficulty (blocks_ f)).

(** "Count inputs across all transactions in all fork blocks whose
    previous_output == outpoint". *)
Definition spends_in_transaction (outpoint : output_point) (tx : transaction) : Z :=
  count_if (points outpoint) (inputs tx).

Definition spends_in_block (outpoint : output_point) (b : block) : Z :=
  sum (map (spends_in_transaction outpoint) (transactions b)).

Definition spends_in_fork (outpoint : output_point) (f : fork) : Z :=
  sum (map (spends_in_block outpoint) (blocks_ f)).

(** "Count occurrences of tx.hash across all transactions in all fork
    blocks". *)
Definition occurrences (tx : transaction) (f : fork) : Z :=
  sum (map (fun b => count_if (fun block_tx => tx_hash block_tx =? tx_hash tx)
                              (transactions b))
           (blocks_ f)).

(** "Scan fork blocks from highest index down to 0; within each block, scan
    transactions in order; the first transaction with tx.hash ==
    outpoint.hash and outpoint.index < tx.outputs.len": [tx] sits at
    [position] in the block at [index], it matches, nothing before it in
    its block matches and nothing in a block of higher index does. *)
Definition first_match (f : fork) (outpoint : output_point)
    (index position : nat) (tx : transaction) : Prop :=
  exists b,
    nth_error (blocks_ f) index = Some b /\
    nth_error (transactions b) position = Some tx /\
    matches outpoint tx = true /\
    (forall position' tx',
       (position' < position)%nat ->
       nth_error (transactions b) position' = Some tx' ->
       matches outpoint tx' = false) /\
    (forall index' b' tx',
       (index < index')%nat ->
       nth_error (blocks_ f) index' = Some b' ->
       In tx' (transactions b') ->
       matches outpoint tx' = false).

Definition no_match (f : fork) (outpoint : output_point) : Prop :=
  forall b tx, In b (blocks_ f) -> In tx (transactions b) ->
               matches outpoint tx = false.

(** The output the outpoint designates in a transaction. *)
Definition designated (outpoint : output_point) (tx : transaction) : output :=
  nth (Z.to_nat (point_index outpoint)) (outputs tx) output_default.

(** "Initialize cache := invalid-output, height := not_specified": the
    slots of the outpoint with these two reset. *)
Definition reset (outpoint : output_point) : validation_type :=
  {| spent := spent (validation outpoint);
     confirmed := confirmed (validation outpoint);
     Chain.height := not_specified; cache := output_default |}.

(** The slots after a valid output was found at [position] in a block of
    height [h]. *)
Definition resolved (outpoint : output_point) (position : nat) (h : Z)
    (out : output) : validation_type :=
  {| spent := spent (validation outpoint);
     confirmed := confirmed (validation outpoint);
     Chain.height := match position with O => h | S _ => not_specified end;
     cache := out |}.

End Stated.

(** ** Sample blocks and forks *)

Module Sample.

(** A header with the given previous-block hash, bits and hash. *)
Definition header_of (previous : hash_digest) (compact : Z) (h : hash_digest)
    : header :=
  {| version := 1; previous_block_hash := previous; merkle := 0;
     timestamp := 1231006505; bits := compact; nonce := 0; header_hash := h |}.

Definition null_point : output_point :=
  {| point_hash := null_hash; point_index := null_index;
     validation := validation_default |}.

(** A coinbase paying 50 coins: its only input has the null outpoint. *)
Definition coinbase (h : hash_digest) : transaction :=
  {| tx_hash := h;
     inputs := [{| previous_output := null_point; input_script := [];
                   sequence := max_uint32 |}];
     outputs := [{| value := 5000000000; script := [118; 169] |}] |}.

(** The outpoint (500, 0) and a transaction 600 whose only input spends it. *)
Definition outpoint : output_point :=
  {| point_hash := 500; point_index := 0; validation := validation_default |}.

Definition spender : transaction :=
  {| tx_hash := 600;
     inputs := [{| previous_output := outpoint; input_script := [];
                   sequence := max_uint32 |}];
     outputs := [{| value := 4000000000; script := [118; 169] |}] |}.

(** Two linked blocks above a parent of hash 42: the first spends
    [outpoint] once, the second does not spend it. *)
Definition block0 : block :=
  {| block_header := header_of 42 0x1d00ffff 1000;
     transactions := [coinbase 601; spender] |}.

Definition block1 : block :=
  {| block_header := header_of 1000 0x1d00ffff 1001;
     transactions := [coinbase 602] |}.

(** The fork assembled as the block pool does: top first, then ancestors. *)
Definition linked_fork : fork :=
  snd (push_front (snd (push_front Fork.new block1)) block0).

Definition fork42 : fork := set_height linked_fork 42.

(** The same fork under a parent at the greatest height of the type. *)
Definition fork_at_limit : fork := set_height linked_fork max_size_t.

(** Two linked blocks whose bits declare the target 1. *)
Definition heavy0 : block :=
  {| block_header := header_of 42 0x03000001 2000;
     transactions := [coinbase 701] |}.

Definition heavy1 : block :=
  {| block_header := header_of 2000 0x03000001 2001;
     transactions := [coinbase 702] |}.

Definition heavy_fork : fork :=
  snd (push_front (snd (push_front Fork.new heavy1)) heavy0).

(** A block whose first transaction has a default-constructed output, and
    the outpoint that designates it. *)
Definition hollow : transaction :=
  {| tx_hash := 800;
     inputs := [{| previous_output := null_point; input_script := [];
                   sequence := max_uint32 |}];
     outputs := [output_default] |}.

Definition hollow_block : block :=
  {| block_header := header_of 42 0x1d00ffff 3000; transactions := [hollow] |}.

Definition hollow_fork : fork :=
  set_height (snd (push_front Fork.new hollow_block)) 42.

Definition hollow_point : output_point :=
  {| point_hash := 800; point_index := 0; validation := validation_default |}.

(** Outpoints into [fork42]: the coinbase output of the top block, the
    output of [spender] in the block below. *)
Definition top_coinbase_point : output_point :=
  {| point_hash := 602; point_index := 0; validation := validation_default |}.

Definition spender_point : output_point :=
  {| point_hash := 600; point_index := 0; validation := validation_default |}.

(** A second transaction spending [outpoint], and a fork of 65 linked blocks
    in which the first block and the top block each spend it once. *)
Definition respender : transaction :=
  {| tx_hash := 900;
     inputs := [{| previous_output := outpoint; input_script := [];
                   sequence := max_uint32 |}];
     outputs := [{| value := 3000000000; script := [118; 169] |}] |}.

Definition chain_block (i : nat) (txs : list transaction) : block :=
  {| block_header :=
       header_of (4999 + Z.of_nat i) 0x1d00ffff (5000 + Z.of_nat i);
     transactions := coinbase (10000 + Z.of_nat i) :: txs |}.

Definition long_blocks : list block :=
  chain_block 0 [spender] ::
  map (fun i => chain_block i []) (seq 1 63) ++
  [chain_block 64 [respender]].

Definition long_fork : fork :=
  fold_right (fun b f => snd (push_front f b)) Fork.new long_blocks.

(** Collaborators that pass every block, know the parent of hash 42 at
    height 100, and report a competing segment of exactly the work the fork
    claims. *)
Definition even_work : Organizer.collaborators :=
  {| Organizer.check := fun _ => Organizer.success;
     Organizer.accept := fun _ => Organizer.success;
     Organizer.connect := fun _ => Organizer.success;
     Organizer.get_path := fun b => snd (push_front Fork.new b);
     Organizer.get_block_exists := fun _ => false;
     Organizer.get_height := fun h => if h =? 42 then Some 100 else None;
     Organizer.get_fork_difficulty := fun maximum _ => Some maximum;
     Organizer.reorganize := fun _ _ => (Organizer.success, []);
     Organizer.begin_writes := true;
     Organizer.end_writes := true;
     Organizer.at_accept := fun this => this;
     Organizer.at_connect := fun this => this |}.

(** The same collaborators with a store that already holds every block. *)
Definition all_known : Organizer.collaborators :=
  {| Organizer.check := fun _ => Organizer.success;
     Organizer.accept := fun _ => Organizer.success;
     Organizer.connect := fun _ => Organizer.success;
     Organizer.get_path := fun b => snd (push_front Fork.new b);
     Organizer.get_block_exists := fun _ => true;
     Organizer.get_height := fun h => if h =? 42 then Some 100 else None;
     Organizer.get_fork_difficulty := fun maximum _ => Some maximum;
     Organizer.reorganize := fun _ _ => (Organizer.success, []);
     Organizer.begin_writes := true;
     Organizer.end_writes := true;
     Organizer.at_accept := fun this => this;
     Organizer.at_connect := fun this => this |}.

Definition default_settings : Organizer.settings :=
  {| Organizer.cores := 0; Organizer.priority := true;
     Organizer.flush_reorganizations := false |}.

(** An organizer as constructed, and one that was started. *)
Definition fresh : Organizer.organizer := Organizer.new default_settings.

Definition started : Organizer.organizer :=
  fst (fst (Organizer.start even_work fresh)).

(** Collaborators whose store reports a competing segment with no work at
    all and hands back one outgoing block on reorganization. *)
Definition more_work : Organizer.collaborators :=
  {| Organizer.check := fun _ => Organizer.success;
     Organizer.accept := fun _ => Organizer.success;
     Organizer.connect := fun _ => Organizer.success;
     Organizer.get_path := fun b => snd (push_front Fork.new b);
     Organizer.get_block_exists := fun _ => false;
     Organizer.get_height := fun h => if h =? 42 then Some 100 else None;
     Organizer.get_fork_difficulty := fun _ _ => Some 0;
     Organizer.reorganize := fun _ _ => (Organizer.success, [heavy0]);
     Organizer.begin_writes := true;
     Organizer.end_writes := true;
     Organizer.at_accept := fun this => this;
     Organizer.at_connect := fun this => this |}.

(** The same with a store whose write fails. *)
Definition failing_store : Organizer.collaborators :=
  {| Organizer.check := fun _ => Organizer.success;
     Organizer.accept := fun _ => Organizer.success;
     Organizer.connect := fun _ => Organizer.success;
     Organizer.get_path := fun b => snd (push_front Fork.new b);
     Organizer.get_block_exists := fun _ => false;
     Organizer.get_height := fun h => if h =? 42 then Some 100 else None;
     Organizer.get_fork_difficulty := fun _ _ => Some 0;
     Organizer.reorganize := fun _ _ => (Organizer.other_error 5, []);
     Organizer.begin_writes := true;
     Organizer.end_writes := true;
     Organizer.at_accept := fun this => this;
     Organizer.at_connect := fun this => this |}.

(** Collaborators whose validator rejects every block out of context, and a
    store that knows the parent only at the greatest height. *)
Definition rejecting : Organizer.collaborators :=
  {| Organizer.check := fun _ => Organizer.other_error 1;
     Organizer.accept := fun _ => Organizer.other_error 2;
     Organizer.connect := fun _ => Organizer.other_error 3;
     Organizer.get_path := fun b => snd (push_front Fork.new b);
     Organizer.get_block_exists := fun _ => false;
     Organizer.get_height := fun _ => None;
     Organizer.get_fork_difficulty := fun _ _ => None;
     Organizer.reorganize := fun _ _ => (Organizer.success, []);
     Organizer.begin_writes := false;
     Organizer.end_writes := false;
     Organizer.at_accept := fun this => this;
     Organizer.at_connect := fun this => this |}.

Definition at_the_limit : Organizer.collaborators :=
  {| Organizer.check := fun _ => Organizer.success;
     Organizer.accept := fun _ => Organizer.success;
     Organizer.connect := fun _ => Organizer.success;
     Organizer.get_path := fun b => snd (push_front Fork.new b);
     Organizer.get_block_exists := fun _ => false;
     Organizer.get_height := fun _ => Some max_size_t;
     Organizer.get_fork_difficulty := fun _ _ => Some 0;
     Organizer.reorganize := fun _ _ => (Organizer.success, []);
     Organizer.begin_writes := true;
     Organizer.end_writes := true;
     Organizer.at_accept := fun this => this;
     Organizer.at_connect := fun this => this |}.

(** The fork of [block0] alone, anchored at height 100. *)
Definition anchored : fork := set_height (snd (push_front Fork.new block0)) 100.

End Sample.

(** ** The thread pool settings (pools/organizer.cpp)

    The two file-local helpers that size the priority pool. The number of
    hardware threads, [std::thread::hardware_concurrency()], is an argument. *)

Module Threads.

Inductive thread_priority : Type :=
| high
| normal.

(** [cores(settings)] *)
Definition cores (hardware_concurrency : Z) (s : Organizer.settings) : Z :=
  let configured := Organizer.cores s in
  let hardware := Z.max hardware_concurrency 1 in
  if configured =? 0 then hardware else Z.min configured hardware.

(** [priority(settings)] *)
Definition priority (s : Organizer.settings) : thread_priority :=
  if Organizer.priority s then high else normal.

End Threads.

(** ** Notions the further properties are stated in *)

Module Shape.

(** Each block names the one before it as its parent. *)
Fixpoint linked (bs : list block) : Prop :=
  match bs with
  | [] => True
  | b :: rest =>
      match rest with
      | [] => True
      | next :: _ => previous_block_hash (block_header next) = block_hash b
      end /\ linked rest
  end.

(** The forks a user of the class can build: from the constructor, by
    [set_height] and [push_front]. *)
Inductive reachable : fork -> Prop :=
| reach_new : reachable Fork.new
| reach_set_height (f : fork) (h : Z) :
    reachable f -> reachable (set_height f h)
| reach_push_front (f : fork) (b : block) :
    reachable f -> reachable (snd (push_front f b)).

(** A sum in which every entry counts twice as much as the one after it. *)
Fixpoint doubling_sum (l : list Z) : Z :=
  match l with
  | [] => 0
  | c :: rest => c * 2 ^ Z.of_nat (length rest) + doubling_sum rest
  end.

(** The events by which the sequence changes the block pool or tells the
    subscribers. *)
Definition is_pool_update (e : Organizer.event) : bool :=
  match e with
  | Organizer.pool_add _ | Organizer.pool_add_list _
  | Organizer.pool_remove _ | Organizer.pool_prune _ => true
  | _ => false
  end.

Definition is_notification (e : Organizer.event) : bool :=
  match e with
  | Organizer.subscriber_invoke _ _ _ _ => true
  | _ => false
  end.

Definition is_raise (e : Organizer.event) : bool :=
  match e with
  | Organizer.raise _ => true
  | _ => false
  end.

End Shape.

(** * Properties *)

(** ** Checked arithmetic *)

Lemma safe_add_returns (a b : Z) :
  a + b <= max_size_t -> safe_add a b = Returns (a + b).
Proof.
  intros H. unfold safe_add.
  destruct (Z.gtb_spec a (max_size_t - b)); [lia | reflexivity].
Qed.

Lemma safe_add_throws (a b : Z) :
  max_size_t < a + b -> safe_add a b = Throws overflow_error.
Proof.
  intros H. unfold safe_add.
  destruct (Z.gtb_spec a (max_size_t - b)); [reflexivity | lia].
Qed.

Lemma safe_subtract_returns (a b : Z) :
  b <= a -> safe_subtract a b = Returns (a - b).
Proof.
  intros H. unfold safe_subtract, min_size_t.
  destruct (Z.ltb_spec a (0 + b)); [lia | reflexivity].
Qed.

Lemma safe_subtract_throws (a b : Z) :
  a < b -> safe_subtract a b = Throws underflow_error.
Proof.
  intros H. unfold safe_subtract, min_size_t.
  destruct (Z.ltb_spec a (0 + b)); [reflexivity | lia].
Qed.

Lemma safe_add_is_size_t (a b c : Z) :
  is_size_t a -> is_size_t b -> safe_add a b = Returns c -> is_size_t c.
Proof.
  unfold safe_add, is_size_t. intros Ha Hb.
  destruct (Z.gtb_spec a (max_size_t - b)); [discriminate |].
  intros [= <-]. lia.
Qed.

Lemma safe_subtract_is_size_t (a b c : Z) :
  is_size_t a -> is_size_t b -> safe_subtract a b = Returns c -> is_size_t c.
Proof.
  unfold safe_subtract, is_size_t, min_size_t. intros Ha Hb.
  destruct (Z.ltb_spec a (0 + b)); [discriminate |].
  intros [= <-]. lia.
Qed.

(** ** Indexes and heights *)

Lemma index_of_above (f : fork) (h : Z) :
  height_ f < h -> index_of f h = Returns (h - height_ f - 1).
Proof.
  intros H. unfold index_of.
  rewrite safe_subtract_returns by lia. cbn [bind].
  apply safe_subtract_returns. lia.
Qed.

Lemma index_of_not_above (f : fork) (h : Z) :
  h <= height_ f -> index_of f h = Throws underflow_error.
Proof.
  intros H. unfold index_of.
  destruct (Z.eq_dec h (height_ f)) as [-> | Hne].
  - rewrite safe_subtract_returns by lia. cbn [bind].
    apply safe_subtract_throws. lia.
  - rewrite safe_subtract_throws by lia. reflexivity.
Qed.

Lemma height_at_fits (f : fork) (i : Z) :
  height_ f + i + 1 <= max_size_t -> height_at f i = Returns (height_ f + i + 1).
Proof.
  intros H. unfold height_at.
  rewrite safe_add_returns by lia. cbn [bind].
  apply safe_add_returns. lia.
Qed.

Lemma height_at_overflows (f : fork) (i : Z) :
  max_size_t < height_ f + i + 1 -> height_at f i = Throws overflow_error.
Proof.
  intros H. unfold height_at.
  destruct (Z.eq_dec (height_ f + i) max_size_t) as [E | Hne].
  - rewrite safe_add_returns by lia. cbn [bind].
    apply safe_add_throws. lia.
  - rewrite safe_add_throws by lia. reflexivity.
Qed.

Lemma size_nonneg (f : fork) : 0 <= size f.
Proof. unfold size. lia. Qed.

Lemma block_at_inside (f : fork) (i : Z) :
  0 <= i < size f -> exists b, block_at f i = Some b.
Proof.
  intros [H0 H1]. unfold block_at.
  destruct (Z.ltb_spec i (size f)); [| lia].
  destruct (nth_error (blocks_ f) (Z.to_nat i)) eqn:E; [eauto |].
  apply nth_error_None in E. unfold size in H1. lia.
Qed.

Lemma block_at_outside (f : fork) (i : Z) :
  size f <= i -> block_at f i = None.
Proof.
  intros H. unfold block_at.
  destruct (Z.ltb_spec i (size f)); [lia | reflexivity].
Qed.

Lemma block_at_nat (f : fork) (n : nat) :
  block_at f (Z.of_nat n) = nth_error (blocks_ f) n.
Proof.
  unfold block_at, size. rewrite Nat2Z.id.
  destruct (Z.ltb_spec (Z.of_nat n) (Z.of_nat (length (blocks_ f)))) as [H | H];
    [reflexivity |].
  symmetry. apply nth_error_None. lia.
Qed.

(** ** push_front *)

(** C3: [push_front f b] returns true exactly when the fork is empty or the
    hash of [b] is the previous-block hash of the front block; it then
    prepends [b] and the size grows by one; otherwise it returns false and
    the fork, and so its size, is unchanged. *)
Theorem push_front_links (f : fork) (b : block) :
  (fst (push_front f b) = true <->
     empty f = true \/
     exists front, hd_error (blocks_ f) = Some front /\
                   block_hash b = previous_block_hash (block_header front)) /\
  (fst (push_front f b) = true ->
     blocks_ (snd (push_front f b)) = b :: blocks_ f /\
     height_ (snd (push_front f b)) = height_ f) /\
  (fst (push_front f b) = false -> snd (push_front f b) = f) /\
  (size (snd (push_front f b)) = size f + 1 <-> fst (push_front f b) = true) /\
  (size (snd (push_front f b)) = size f <-> fst (push_front f b) = false).
Proof.
  unfold push_front, empty, size. destruct f as [h bs]. cbn [blocks_ height_].
  destruct bs as [| front rest].
  - cbn. repeat split; intros; try auto; try discriminate; try lia.
  - destruct (Z.eqb_spec (previous_block_hash (block_header front)) (block_hash b))
      as [E | E]; cbn [fst snd blocks_ height_ hd_error length].
    + repeat split; intros; try auto; try discriminate; try lia.
      right. exists front. auto.
    + repeat split; intros; try auto; try discriminate; try lia.
      destruct H as [H | (front' & [= <-] & H)]; [discriminate | congruence].
Qed.

Lemma push_front_links_sample :
  push_front (snd (push_front Fork.new Sample.block1)) Sample.block0 =
    (true, {| height_ := 0; blocks_ := [Sample.block0; Sample.block1] |}) /\
  push_front (snd (push_front Fork.new Sample.block1)) Sample.heavy0 =
    (false, {| height_ := 0; blocks_ := [Sample.block1] |}).
Proof.
  destruct (push_front_links (snd (push_front Fork.new Sample.block1))
                             Sample.block0) as (Hiff & Hgrow & _).
  destruct (push_front_links (snd (push_front Fork.new Sample.block1))
                             Sample.heavy0) as (_ & _ & Hkeep & _).
  split.
  - destruct Hgrow as [Hblocks Hheight].
    + apply Hiff. right. exists Sample.block1. split; reflexivity.
    + reflexivity.
  - rewrite (surjective_pairing (push_front _ Sample.heavy0)).
    rewrite Hkeep; reflexivity.
Defined.

(** ** The header queries *)

(** The block a header query reads, when there is one. *)
Lemma query_block (f : fork) (h : Z) :
  height_ f < h -> h - height_ f - 1 < size f ->
  exists b, block_at f (h - height_ f - 1) = Some b.
Proof. intros H1 H2. apply block_at_inside. lia. Qed.

Ltac query_hit H1 Hb :=
  match goal with
  | |- context [?h <=? height_ ?f] =>
      destruct (Z.leb_spec h (height_ f)); [lia |];
      rewrite (index_of_above f h H1); cbn [bind]; rewrite Hb; reflexivity
  end.

Ltac query_miss f h :=
  destruct (Z.leb_spec h (height_ f)); [reflexivity |];
  rewrite (index_of_above f h) by lia; cbn [bind];
  rewrite block_at_outside by lia; reflexivity.

(** C5: each of [get_bits], [get_version], [get_timestamp] and
    [get_block_hash] at height [h] returns true with the field of the block
    at index [index_of h = h - parent_height - 1] when [h] is above the parent
    height and that index is below the size; in every other case it returns
    false and leaves its output argument as it was. So a field is returned if
    and only if both conditions hold. *)
Theorem header_queries (f : fork) (h out_bits out_version out_timestamp : Z)
    (out_hash : hash_digest) :
  (height_ f < h /\ h - height_ f - 1 < size f ->
     exists b,
       index_of f h = Returns (h - height_ f - 1) /\
       block_at f (h - height_ f - 1) = Some b /\
       get_bits f out_bits h = Returns (true, bits (block_header b)) /\
       get_version f out_version h = Returns (true, version (block_header b)) /\
       get_timestamp f out_timestamp h =
         Returns (true, timestamp (block_header b)) /\
       get_block_hash f out_hash h = Returns (true, block_hash b)) /\
  (~ (height_ f < h /\ h - height_ f - 1 < size f) ->
     get_bits f out_bits h = Returns (false, out_bits) /\
     get_version f out_version h = Returns (false, out_version) /\
     get_timestamp f out_timestamp h = Returns (false, out_timestamp) /\
     get_block_hash f out_hash h = Returns (false, out_hash)).
Proof.
  split.
  - intros [H1 H2]. destruct (query_block f h H1 H2) as [b Hb].
    exists b. split; [apply index_of_above; exact H1 |]. split; [exact Hb |].
    unfold get_bits, get_version, get_timestamp, get_block_hash.
    repeat split; query_hit H1 Hb.
  - intros H.
    unfold get_bits, get_version, get_timestamp, get_block_hash.
    repeat split; query_miss f h.
Qed.

(** C10: the four header queries always return: above the parent height
    neither checked subtraction of [index_of] can fail, at or below it
    [index_of] is not reached, and an index at or past the size makes
    [block_at] yield the null pointer, on which the query returns false. *)
Theorem header_queries_total (f : fork) (h out_bits out_version out_timestamp : Z)
    (out_hash : hash_digest) :
  (exists r, get_bits f out_bits h = Returns r) /\
  (exists r, get_version f out_version h = Returns r) /\
  (exists r, get_timestamp f out_timestamp h = Returns r) /\
  (exists r, get_block_hash f out_hash h = Returns r) /\
  (height_ f < h ->
     safe_subtract h (height_ f) = Returns (h - height_ f) /\
     safe_subtract (h - height_ f) 1 = Returns (h - height_ f - 1) /\
     index_of f h = Returns (h - height_ f - 1)) /\
  (height_ f < h -> size f <= h - height_ f - 1 ->
     block_at f (h - height_ f - 1) = None /\
     get_bits f out_bits h = Returns (false, out_bits) /\
     get_version f out_version h = Returns (false, out_version) /\
     get_timestamp f out_timestamp h = Returns (false, out_timestamp) /\
     get_block_hash f out_hash h = Returns (false, out_hash)).
Proof.
  assert (T : forall (A : Type) (out : A) (field : block -> A),
             exists r,
               (if h <=? height_ f then Returns (false, out)
                else index <- index_of f h ;;
                     match block_at f index with
                     | None => Returns (false, out)
                     | Some b => Returns (true, field b)
                     end) = Returns r).
  { intros A out field. destruct (Z.leb_spec h (height_ f)); [eauto |].
    rewrite index_of_above by lia. cbn [bind].
    destruct (block_at f (h - height_ f - 1)); eauto. }
  split; [exact (T Z out_bits (fun b => bits (block_header b))) |].
  split; [exact (T Z out_version (fun b => version (block_header b))) |].
  split; [exact (T Z out_timestamp (fun b => timestamp (block_header b))) |].
  split; [exact (T hash_digest out_hash block_hash) |].
  split.
  - intros H. repeat split.
    + apply safe_subtract_returns. lia.
    + apply safe_subtract_returns. lia.
    + apply index_of_above. exact H.
  - intros H1 H2. split; [apply block_at_outside; exact H2 |].
    unfold get_bits, get_version, get_timestamp, get_block_hash.
    repeat split; query_miss f h.
Qed.

(** ** index_of and height_at *)

(** C6, as the code has it: [height_at i] is [parent + i + 1] whenever that
    sum fits [size_t], and throws the overflow error of the checked addition
    when it does not; above the parent height [index_of h + 1 + parent = h],
    and on such heights and on indexes whose height fits the two functions
    are inverse to each other. *)
Theorem height_at_index_of (f : fork) (i h : Z) :
  (height_ f + i + 1 <= max_size_t ->
     height_at f i = Returns (height_ f + i + 1)) /\
  (max_size_t < height_ f + i + 1 ->
     height_at f i = Throws overflow_error) /\
  (height_ f < h -> h - height_ f - 1 < size f ->
     exists j, index_of f h = Returns j /\ j + 1 + height_ f = h) /\
  (height_ f < h -> h <= max_size_t ->
     (j <- index_of f h ;; height_at f j) = Returns h) /\
  (0 <= i -> height_ f + i + 1 <= max_size_t ->
     (k <- height_at f i ;; index_of f k) = Returns i).
Proof.
  split; [apply height_at_fits |].
  split; [apply height_at_overflows |].
  split; [| split].
  - intros H1 _. exists (h - height_ f - 1).
    split; [apply index_of_above; exact H1 | lia].
  - intros H1 H2. rewrite index_of_above by exact H1. cbn [bind].
    rewrite height_at_fits by lia. f_equal. lia.
  - intros H1 H2. rewrite height_at_fits by exact H2. cbn [bind].
    rewrite index_of_above by lia. f_equal. lia.
Qed.

Lemma height_at_index_of_sample :
  height_at Sample.fork42 10 = Returns 53 /\
  (exists j, index_of Sample.fork42 44 = Returns j /\ j + 1 + 42 = 44) /\
  (j <- index_of Sample.fork42 44 ;; height_at Sample.fork42 j) = Returns 44 /\
  (k <- height_at Sample.fork42 1 ;; index_of Sample.fork42 k) = Returns 1.
Proof.
  destruct (height_at_index_of Sample.fork42 10 44) as (H1 & _ & H3 & H4 & _).
  destruct (height_at_index_of Sample.fork42 1 44) as (_ & _ & _ & _ & H5).
  split; [apply H1; vm_compute; discriminate |].
  split; [apply H3; vm_compute; reflexivity |].
  split; [apply H4; vm_compute; [reflexivity | discriminate] |].
  apply H5; vm_compute; discriminate.
Defined.

(** Under a parent at the greatest height the checked addition fails on the
    first index already: [height_at] throws and returns no height. *)
Lemma height_at_limit_throws :
  block_at Sample.fork_at_limit 0 = Some Sample.block0 /\
  height_at Sample.fork_at_limit 0 = Throws overflow_error /\
  height_at Sample.fork_at_limit 0 <>
    Returns (height_ Sample.fork_at_limit + 0 + 1).
Proof.
  split; [reflexivity |]. split; [reflexivity | discriminate].
Qed.

Lemma header_queries_sample :
  get_bits Sample.fork42 0 44 = Returns (true, 0x1d00ffff) /\
  get_block_hash Sample.fork42 0 44 = Returns (true, 1001) /\
  get_version Sample.fork42 7 45 = Returns (false, 7) /\
  get_timestamp Sample.fork42 7 42 = Returns (false, 7).
Proof.
  destruct (header_queries Sample.fork42 44 0 0 0 0) as [Hit _].
  destruct Hit as (b & _ & Hb & Hbits & _ & _ & Hhash);
    [vm_compute; split; reflexivity |].
  vm_compute in Hb. injection Hb as <-.
  destruct (header_queries Sample.fork42 45 7 7 7 7) as [_ Miss45].
  destruct Miss45 as (_ & Hversion & _ & _);
    [vm_compute; intros [_ H]; discriminate |].
  destruct (header_queries Sample.fork42 42 7 7 7 7) as [_ Miss42].
  destruct Miss42 as (_ & _ & Htime & _);
    [vm_compute; intros [H _]; discriminate |].
  split; [exact Hbits |]. split; [exact Hhash |].
  split; [exact Hversion | exact Htime].
Defined.

Lemma header_queries_total_sample :
  index_of Sample.fork42 44 = Returns 1 /\
  get_bits Sample.fork42 7 1000 = Returns (false, 7).
Proof.
  destruct (header_queries_total Sample.fork42 44 7 7 7 7)
    as (_ & _ & _ & _ & Hindex & _).
  destruct (header_queries_total Sample.fork42 1000 7 7 7 7)
    as (_ & _ & _ & _ & _ & Hmiss).
  split.
  - apply Hindex. reflexivity.
  - apply Hmiss; vm_compute; [reflexivity | discriminate].
Defined.

(** ** The difficulty of a fork *)

Lemma wrap_uint256_range (x : Z) : 0 <= wrap_uint256 x < 2 ^ 256.
Proof. unfold wrap_uint256. apply Z.mod_pos_bound. reflexivity. Qed.

Lemma wrap_uint256_small (x : Z) : 0 <= x < 2 ^ 256 -> wrap_uint256 x = x.
Proof. intros H. unfold wrap_uint256. apply Z.mod_small. exact H. Qed.

Lemma wrap_uint256_add_l (x y : Z) :
  wrap_uint256 (wrap_uint256 x + y) = wrap_uint256 (x + y).
Proof. unfold wrap_uint256. apply Zplus_mod_idemp_l. Qed.

Lemma work_of_bits_range (compact : Z) : 0 <= work_of_bits compact < 2 ^ 256.
Proof.
  unfold work_of_bits.
  destruct (compact_target compact) as [target |]; [| split; [lia | reflexivity]].
  cbv zeta. destruct (wrap_uint256 (target + 1) =? 0).
  - split; [lia | reflexivity].
  - apply wrap_uint256_range.
Qed.

Lemma block_difficulty_range (b : block) : 0 <= block_difficulty b < 2 ^ 256.
Proof. apply work_of_bits_range. Qed.

Lemma claimed_work_nonneg (f : fork) : 0 <= Stated.claimed_work f.
Proof.
  unfold Stated.claimed_work. induction (blocks_ f) as [| b bs IH]; cbn.
  - lia.
  - pose proof (block_difficulty_range b). unfold Stated.sum in IH. lia.
Qed.

Lemma difficulty_loop (bs : list block) (total : Z) :
  0 <= total < 2 ^ 256 ->
  fold_left (fun total b => wrap_uint256 (total + block_difficulty b)) bs total =
  wrap_uint256 (total + Stated.sum (map block_difficulty bs)).
Proof.
  revert total. induction bs as [| b bs IH]; intros total H; cbn.
  - rewrite Z.add_0_r. symmetry. apply wrap_uint256_small. exact H.
  - rewrite IH by apply wrap_uint256_range.
    rewrite wrap_uint256_add_l. f_equal. unfold Stated.sum. lia.
Qed.

(** C7, as the code has it: [difficulty] is the sum over the blocks of each
    block's claimed work, taken in [uint256_t], that is modulo 2^256: it is
    the sum itself whenever the sum is below 2^256, and 0 for the empty
    fork. *)
Theorem difficulty_claimed_work (f : fork) :
  difficulty f = wrap_uint256 (Stated.claimed_work f) /\
  (Stated.claimed_work f < 2 ^ 256 -> difficulty f = Stated.claimed_work f) /\
  (empty f = true -> difficulty f = 0) /\
  difficulty Fork.new = 0.
Proof.
  assert (E : difficulty f = wrap_uint256 (Stated.claimed_work f)).
  { unfold difficulty, Stated.claimed_work.
    rewrite difficulty_loop by (split; [lia | reflexivity]). reflexivity. }
  split; [exact E |]. split; [| split].
  - intros H. rewrite E. apply wrap_uint256_small.
    split; [apply claimed_work_nonneg | exact H].
  - unfold empty, difficulty. destruct (blocks_ f); [reflexivity | discriminate].
  - reflexivity.
Qed.

Lemma difficulty_claimed_work_sample :
  difficulty Sample.linked_fork = 2 * 4295032833 /\
  difficulty (set_height Fork.new 42) = 0.
Proof.
  destruct (difficulty_claimed_work Sample.linked_fork) as (_ & Hsum & _).
  destruct (difficulty_claimed_work (set_height Fork.new 42)) as (_ & _ & Hempty & _).
  split.
  - rewrite Hsum; vm_compute; reflexivity.
  - apply Hempty. reflexivity.
Defined.

(** Two blocks whose bits declare the target 1 claim 2^255 each: their sum is
    2^256, which [uint256_t] does not hold, and [difficulty] is 0. *)
Lemma difficulty_wraps :
  block_difficulty Sample.heavy0 = 2 ^ 255 /\
  block_difficulty Sample.heavy1 = 2 ^ 255 /\
  Stated.claimed_work Sample.heavy_fork = 2 ^ 256 /\
  difficulty Sample.heavy_fork = 0 /\
  difficulty Sample.heavy_fork <> Stated.claimed_work Sample.heavy_fork.
Proof.
  repeat split; try (vm_compute; reflexivity). vm_compute. discriminate.
Qed.


(** ** populate_spent *)

Lemma wrap_size_t_add_l (x y : Z) :
  wrap_size_t (wrap_size_t x + y) = wrap_size_t (x + y).
Proof. unfold wrap_size_t. apply Zplus_mod_idemp_l. Qed.

Lemma wrap_size_t_add_r (x y : Z) :
  wrap_size_t (x + wrap_size_t y) = wrap_size_t (x + y).
Proof. unfold wrap_size_t. apply Zplus_mod_idemp_r. Qed.

Lemma inner_loop (outpoint : output_point) (txs : list transaction) (sum : Z) :
  wrap_size_t (fold_left (inner outpoint) txs sum) =
  wrap_size_t (sum + Stated.sum (map (Stated.spends_in_transaction outpoint) txs)).
Proof.
  revert sum. induction txs as [| tx txs IH]; intros sum; cbn.
  - rewrite Z.add_0_r. reflexivity.
  - rewrite IH. unfold inner at 1. rewrite wrap_size_t_add_l.
    f_equal. unfold Stated.spends_in_transaction, Stated.sum. lia.
Qed.

(** One step of the outer accumulation adds the running total twice: once
    as the start of the inner accumulation and once more to its result. *)
Lemma outer_doubles (outpoint : output_point) (total : Z) (b : block) :
  outer outpoint total b =
  wrap_size_t (2 * total + Stated.spends_in_block outpoint b).
Proof.
  unfold outer. rewrite <- wrap_size_t_add_r, inner_loop, wrap_size_t_add_r.
  f_equal. unfold Stated.spends_in_block. lia.
Qed.

(** The sibling query [populate_tx] accumulates the plain count. *)
Lemma populate_tx_counts (f : fork) (tx : transaction) :
  populate_tx_count f tx = wrap_size_t (Stated.occurrences tx f).
Proof.
  unfold populate_tx_count, Stated.occurrences.
  assert (G : forall bs total,
             wrap_size_t total = total ->
             fold_left
               (fun total b =>
                  wrap_size_t
                    (total + count_if (fun block_tx => tx_hash block_tx =? tx_hash tx)
                                      (transactions b))) bs total =
             wrap_size_t
               (total +
                Stated.sum
                  (map (fun b => count_if (fun block_tx => tx_hash block_tx =? tx_hash tx)
                                          (transactions b)) bs))).
  { induction bs as [| b bs IH]; intros total H; cbn.
    - rewrite Z.add_0_r. symmetry. exact H.
    - rewrite IH.
      + rewrite wrap_size_t_add_l. f_equal. unfold Stated.sum. lia.
      + unfold wrap_size_t. apply Z.mod_mod. discriminate. }
  apply G. reflexivity.
Qed.

(** C1, at a fork the code miscounts: [outpoint] is spent by exactly one
    input of [linked_fork], in its first block, yet [populate_spent] counts 2
    and sets both [spent] and [confirmed]. *)
Theorem populate_spent_counts_twice :
  blocks_ Sample.linked_fork = [Sample.block0; Sample.block1] /\
  Stated.spends_in_fork Sample.outpoint Sample.linked_fork = 1 /\
  populate_spent_count Sample.linked_fork Sample.outpoint = 2 /\
  spent (populate_spent Sample.linked_fork Sample.outpoint) = true /\
  confirmed (populate_spent Sample.linked_fork Sample.outpoint) = true.
Proof. repeat split; vm_compute; reflexivity. Qed.

(** The same doubling hides a double spend: in [long_fork] the first block
    and the top block, 64 blocks above, both spend [outpoint], the first
    spend is doubled 64 times out of [size_t] and the count comes out as 1. *)
Lemma populate_spent_misses_double_spend :
  size Sample.long_fork = 65 /\
  Stated.spends_in_fork Sample.outpoint Sample.long_fork = 2 /\
  populate_spent_count Sample.long_fork Sample.outpoint = 1 /\
  spent (populate_spent Sample.long_fork Sample.outpoint) = false.
Proof. repeat split; vm_compute; reflexivity. Qed.

(** ** populate_prevout *)

Lemma scan_transactions_none (outpoint : output_point) (txs : list transaction)
    (position : Z) :
  (forall tx, In tx txs -> matches outpoint tx = false) ->
  scan_transactions outpoint txs position = None.
Proof.
  revert position. induction txs as [| tx txs IH]; intros position H; cbn.
  - reflexivity.
  - rewrite (H tx) by (left; reflexivity).
    apply IH. intros tx' Hin. apply H. right. exact Hin.
Qed.

Lemma scan_transactions_first (outpoint : output_point) (txs : list transaction)
    (k : nat) (tx : transaction) (position : Z) :
  nth_error txs k = Some tx ->
  matches outpoint tx = true ->
  (forall k' tx', (k' < k)%nat -> nth_error txs k' = Some tx' ->
                  matches outpoint tx' = false) ->
  scan_transactions outpoint txs position =
  Some (position + Z.of_nat k, Stated.designated outpoint tx).
Proof.
  revert k position. induction txs as [| tx0 txs IH]; intros k position Hk Hm Hbefore.
  - destruct k; discriminate.
  - destruct k as [| k]; cbn in Hk |- *.
    + injection Hk as ->. rewrite Hm. rewrite Z.add_0_r. reflexivity.
    + rewrite (Hbefore O tx0) by (solve [lia | reflexivity]).
      rewrite (IH k (position + 1) Hk Hm).
      * do 2 f_equal. lia.
      * intros k' tx' Hlt Hnth. apply (Hbefore (S k') tx'); [lia | exact Hnth].
Qed.

Lemma loop_index (count : Z) (n : nat) :
  count - (count - Z.of_nat (S n)) - 1 = Z.of_nat n.
Proof. lia. Qed.

Lemma loop_block_present (f : fork) (n : nat) :
  (S n <= length (blocks_ f))%nat ->
  exists b,
    block_at f (size f - (size f - Z.of_nat (S n)) - 1) = Some b.
Proof.
  intros H. rewrite loop_index, block_at_nat.
  destruct (nth_error (blocks_ f) n) eqn:E; [eauto |].
  apply nth_error_None in E. lia.
Qed.

Lemma get_output_loop_skips (f : fork) (outpoint : output_point) (n : nat) :
  (forall i b tx, (i < n)%nat -> nth_error (blocks_ f) i = Some b ->
                  In tx (transactions b) -> matches outpoint tx = false) ->
  get_output_loop f outpoint (size f) n = Returns found_default.
Proof.
  induction n as [| n IH]; intros H; [reflexivity |].
  cbn [get_output_loop]. rewrite loop_index, block_at_nat.
  destruct (nth_error (blocks_ f) n) as [b |] eqn:E; [| reflexivity].
  rewrite scan_transactions_none.
  - apply IH. intros i b' tx Hlt. apply H. lia.
  - intros tx Hin. apply (H n b tx); [lia | exact E | exact Hin].
Qed.

Lemma get_output_loop_finds (f : fork) (outpoint : output_point)
    (index position : nat) (tx : transaction) (n : nat) :
  Stated.first_match f outpoint index position tx ->
  (index < n <= length (blocks_ f))%nat ->
  get_output_loop f outpoint (size f) n =
  (h <- height_at f (Z.of_nat index) ;;
   Returns {| found_height := h; found_position := Z.of_nat position;
              found_out := Stated.designated outpoint tx |}).
Proof.
  intros (b & Hb & Htx & Hm & Hbefore & Habove).
  induction n as [| n IH]; intros Hlt; [lia |].
  cbn [get_output_loop]. rewrite loop_index, block_at_nat.
  destruct (Nat.eq_dec n index) as [-> | Hne].
  - rewrite Hb.
    rewrite (scan_transactions_first outpoint (transactions b) position tx 0
               Htx Hm Hbefore).
    reflexivity.
  - destruct (nth_error (blocks_ f) n) as [b' |] eqn:E.
    + rewrite scan_transactions_none.
      * apply IH. lia.
      * intros tx' Hin. apply (Habove n b' tx'); [lia | exact E | exact Hin].
    + apply nth_error_None in E. lia.
Qed.

Lemma get_output_finds (f : fork) (outpoint : output_point)
    (index position : nat) (tx : transaction) :
  Stated.first_match f outpoint index position tx ->
  get_output f outpoint =
  (h <- height_at f (Z.of_nat index) ;;
   Returns {| found_height := h; found_position := Z.of_nat position;
              found_out := Stated.designated outpoint tx |}).
Proof.
  intros H. unfold get_output. apply get_output_loop_finds; [exact H |].
  destruct H as (b & Hb & _). split; [| lia].
  apply nth_error_Some. rewrite Hb. discriminate.
Qed.

Lemma get_output_none (f : fork) (outpoint : output_point) :
  Stated.no_match f outpoint -> get_output f outpoint = Returns found_default.
Proof.
  intros H. unfold get_output. apply get_output_loop_skips.
  intros i b tx _ Hb Hin. apply (H b tx); [| exact Hin].
  apply nth_error_In with (n := i). exact Hb.
Qed.

(** The search always has an outcome: either some transaction is the first
    match, or none matches. *)
Lemma first_match_or_none (f : fork) (outpoint : output_point) :
  (exists index position tx, Stated.first_match f outpoint index position tx) \/
  Stated.no_match f outpoint.
Proof.
  assert (T : forall txs : list transaction,
             (exists k tx, nth_error txs k = Some tx /\
                           matches outpoint tx = true /\
                           forall k' tx', (k' < k)%nat ->
                                          nth_error txs k' = Some tx' ->
                                          matches outpoint tx' = false) \/
             (forall tx, In tx txs -> matches outpoint tx = false)).
  { induction txs as [| tx txs IH].
    - right. intros tx [].
    - destruct (matches outpoint tx) eqn:E.
      + left. exists O, tx. repeat split; [exact E |]. intros k' tx' Hlt. lia.
      + destruct IH as [(k & tx0 & Hk & Hm & Hbefore) | Hnone].
        * left. exists (S k), tx0. repeat split; [exact Hk | exact Hm |].
          intros [| k'] tx' Hlt Hnth.
          -- injection Hnth as <-. exact E.
          -- apply (Hbefore k' tx'); [lia | exact Hnth].
        * right. intros tx' [<- | Hin]; [exact E | apply Hnone; exact Hin]. }
  unfold Stated.first_match, Stated.no_match.
  induction (blocks_ f) as [| b bs IH] using rev_ind.
  - right. intros b tx [].
  - destruct (T (transactions b)) as [(k & tx & Hk & Hm & Hbefore) | Hnone].
    + left. exists (length bs), k, tx, b.
      split; [rewrite nth_error_app2, Nat.sub_diag by lia; reflexivity |].
      split; [exact Hk |]. split; [exact Hm |]. split; [exact Hbefore |].
      intros index' b' tx' Hlt Hnth.
      assert (Hlen : (index' < length (bs ++ [b]))%nat)
        by (apply nth_error_Some; rewrite Hnth; discriminate).
      rewrite length_app in Hlen. cbn in Hlen. lia.
    + destruct IH as [(index & position & tx & b0 & Hb0 & Htx & Hm & Hbefore & Habove)
                     | Hno].
      * left. exists index, position, tx, b0.
        assert (Hindex : (index < length bs)%nat)
          by (apply nth_error_Some; rewrite Hb0; discriminate).
        split; [rewrite nth_error_app1 by exact Hindex; exact Hb0 |].
        split; [exact Htx |]. split; [exact Hm |]. split; [exact Hbefore |].
        intros index' b' tx' Hlt Hnth Hin.
        destruct (Nat.lt_ge_cases index' (length bs)) as [Hin_bs | Hlast].
        -- rewrite nth_error_app1 in Hnth by exact Hin_bs.
           apply (Habove index' b' tx'); assumption.
        -- assert (Hlen : (index' < length (bs ++ [b]))%nat)
             by (apply nth_error_Some; rewrite Hnth; discriminate).
           rewrite length_app in Hlen. cbn in Hlen.
           assert (index' = length bs) as -> by lia.
           rewrite nth_error_app2, Nat.sub_diag in Hnth by lia.
           injection Hnth as <-. apply Hnone. exact Hin.
      * right. intros b' tx' Hin Htx. apply in_app_or in Hin.
        destruct Hin as [Hin | [<- | []]].
        -- apply (Hno b' tx'); assumption.
        -- apply Hnone. exact Htx.
Qed.

(** C4, as the code has it. For a null outpoint the cache stays the invalid
    output and the height stays [not_specified]. For any other outpoint, on
    the first matching transaction (blocks from the highest index down,
    transactions in order), provided the height of its block fits [size_t]
    and the designated output is valid, the cache becomes that output and
    the height becomes the block's height exactly when the transaction is at
    position 0; a designated output that is not valid is treated as not
    found; a block height that does not fit throws; and with no match both
    slots stay reset. The [spent] and [confirmed] slots are never touched. *)
Theorem populate_prevout_resolves (f : fork) (outpoint : output_point) :
  (is_null outpoint = true ->
     populate_prevout f outpoint = (Stated.reset outpoint, None)) /\
  (is_null outpoint = false ->
     forall (index position : nat) (tx : transaction),
       Stated.first_match f outpoint index position tx ->
       (height_ f + Z.of_nat index + 1 <= max_size_t ->
        is_valid (Stated.designated outpoint tx) = true ->
        populate_prevout f outpoint =
        (Stated.resolved outpoint position (height_ f + Z.of_nat index + 1)
                         (Stated.designated outpoint tx), None)) /\
       (height_ f + Z.of_nat index + 1 <= max_size_t ->
        is_valid (Stated.designated outpoint tx) = false ->
        populate_prevout f outpoint = (Stated.reset outpoint, None)) /\
       (max_size_t < height_ f + Z.of_nat index + 1 ->
        populate_prevout f outpoint =
        (Stated.reset outpoint, Some overflow_error))) /\
  (is_null outpoint = false ->
     Stated.no_match f outpoint ->
     populate_prevout f outpoint = (Stated.reset outpoint, None)).
Proof.
  split; [| split].
  - intros Hnull. unfold populate_prevout. rewrite Hnull. reflexivity.
  - intros Hnull index position tx Hfirst.
    unfold populate_prevout. rewrite Hnull.
    rewrite (get_output_finds f outpoint index position tx Hfirst).
    split; [| split].
    + intros Hfits Hvalid. rewrite height_at_fits by exact Hfits.
      cbn [bind found_out found_position found_height]. rewrite Hvalid.
      cbn [negb]. destruct position as [| position]; reflexivity.
    + intros Hfits Hvalid. rewrite height_at_fits by exact Hfits.
      cbn [bind found_out]. rewrite Hvalid. reflexivity.
    + intros Hover. rewrite height_at_overflows by exact Hover. reflexivity.
  - intros Hnull Hnone. unfold populate_prevout. rewrite Hnull.
    rewrite (get_output_none f outpoint Hnone). reflexivity.
Qed.

(** Proves a [first_match] in a sample fork of at most three blocks of at
    most three transactions. *)
Ltac sample_first_match b :=
  exists b; split; [reflexivity |]; split; [reflexivity |];
  split; [reflexivity |]; split;
  [ intros position' tx' Hlt Hnth;
    destruct position' as [| [| [| position']]]; try lia;
    vm_compute in Hnth; injection Hnth as <-; reflexivity
  | intros index' b' tx' Hlt Hnth Hin;
    destruct index' as [| [| [| index']]]; try lia;
    vm_compute in Hnth; try discriminate;
    injection Hnth as <-;
    repeat (destruct Hin as [<- | Hin]; [reflexivity |]); contradiction ].

Lemma populate_prevout_resolves_sample :
  populate_prevout Sample.fork42 Sample.top_coinbase_point =
    ({| spent := false; confirmed := false; Chain.height := 44;
        cache := {| value := 5000000000; script := [118; 169] |} |}, None) /\
  populate_prevout Sample.fork42 Sample.spender_point =
    ({| spent := false; confirmed := false; Chain.height := not_specified;
        cache := {| value := 4000000000; script := [118; 169] |} |}, None) /\
  populate_prevout Sample.fork42 Sample.null_point =
    (Stated.reset Sample.null_point, None).
Proof.
  destruct (populate_prevout_resolves Sample.fork42 Sample.top_coinbase_point)
    as (_ & Htop & _).
  destruct (Htop eq_refl 1%nat 0%nat (Sample.coinbase 602)) as (Hcoinbase & _).
  { sample_first_match Sample.block1. }
  destruct (populate_prevout_resolves Sample.fork42 Sample.spender_point)
    as (_ & Hlow & _).
  destruct (Hlow eq_refl 0%nat 1%nat Sample.spender) as (Hspender & _).
  { sample_first_match Sample.block0. }
  destruct (populate_prevout_resolves Sample.fork42 Sample.null_point)
    as (Hnull & _).
  split; [| split].
  - rewrite Hcoinbase; [reflexivity | vm_compute; discriminate | reflexivity].
  - rewrite Hspender; [reflexivity | vm_compute; discriminate | reflexivity].
  - apply Hnull. reflexivity.
Defined.

(** The first transaction of [hollow_block] matches [hollow_point] and sits
    at position 0 of a block of height 43, but the output it designates is
    not valid: the height slot is left [not_specified]. And under a parent at
    the greatest height the coinbase of the top block is found, but its
    height does not fit: the call throws and the cache stays invalid. *)
Lemma populate_prevout_skips_invalid_output :
  (is_null Sample.hollow_point = false /\
   Stated.first_match Sample.hollow_fork Sample.hollow_point 0 0 Sample.hollow /\
   height_at Sample.hollow_fork 0 = Returns 43 /\
   populate_prevout Sample.hollow_fork Sample.hollow_point =
     (Stated.reset Sample.hollow_point, None) /\
   Chain.height (fst (populate_prevout Sample.hollow_fork Sample.hollow_point))
     <> 43) /\
  (is_null Sample.top_coinbase_point = false /\
   Stated.first_match Sample.fork_at_limit Sample.top_coinbase_point 1 0
                      (Sample.coinbase 602) /\
   populate_prevout Sample.fork_at_limit Sample.top_coinbase_point =
     (Stated.reset Sample.top_coinbase_point, Some overflow_error) /\
   cache (fst (populate_prevout Sample.fork_at_limit Sample.top_coinbase_point))
     <> Stated.designated Sample.top_coinbase_point (Sample.coinbase 602)).
Proof.
  split.
  - split; [reflexivity |]. split.
    + sample_first_match Sample.hollow_block.
    + split; [reflexivity |]. split; [reflexivity |]. vm_compute. discriminate.
  - split; [reflexivity |]. split.
    + sample_first_match Sample.block1.
    + split; [reflexivity |]. vm_compute. discriminate.
Qed.

(** ** The organize sequence *)

Import Organizer.

Lemma replies_app (t u : trace) : replies (t ++ u) = replies t ++ replies u.
Proof.
  induction t as [| e t IH]; [reflexivity |].
  destruct e; cbn; rewrite IH; reflexivity.
Qed.

(** What [organize] does up to the hand-over to the validator, when the
    block is new and its fork is anchored in the store. *)
Lemma organize_reaches_accept (env : collaborators) (this : organizer)
    (b : block) (handler : result_handler) (h : Z) :
  stopped this = false ->
  is_error (check env b) = false ->
  empty (get_path env b) = false ->
  get_block_exists env (block_hash b) = false ->
  get_height env (Fork.hash (get_path env b)) = Some h ->
  h + size (get_path env b) <= max_size_t ->
  organize env this b handler =
  validator_check b :: pool_get_path b ::
  chain_get_block_exists (block_hash b) ::
  chain_get_height (Fork.hash (get_path env b)) ::
  validator_accept (set_height (get_path env b) h) ::
  handle_accept env (at_accept env this)
                (accept env (set_height (get_path env b) h))
                (set_height (get_path env b) h) handler.
Proof.
  intros Hs Hc He Hx Hh Hfit. unfold organize, set_fork_height.
  rewrite Hs, Hc, He, Hx, Hh, safe_add_returns by exact Hfit. reflexivity.
Qed.

(** The store is asked to reorganize only from [handle_connect], and only
    for a fork whose work is strictly above the threshold it reported. *)
Lemma handle_connect_reorganizes (env : collaborators) (this : organizer)
    (ec : code) (f g : fork) (flush : bool) :
  In (chain_reorganize g flush) (handle_connect env this ec f replying) ->
  g = f /\
  exists threshold,
    get_fork_difficulty env (difficulty f) (wrap_size_t (Fork.height f + 1)) =
      Some threshold /\
    threshold < difficulty f.
Proof.
  unfold handle_connect, handle_reorganized, notify_reorganize, replying.
  destruct (stopped this); [intros [H | []]; discriminate |].
  destruct (is_error ec); [intros [H | []]; discriminate |].
  destruct (get_fork_difficulty env (difficulty f) (wrap_size_t (Fork.height f + 1)))
    as [threshold |]; [| intros [H | [H | []]]; discriminate].
  destruct (Z.leb_spec (difficulty f) threshold) as [Hle | Hgt];
    [intros [H | [H | [H | []]]]; discriminate |].
  destruct (top f) as [t |]; [| intros [H | [H | []]]; discriminate].
  destruct (reorganize env f (flush_reorganizations_ this)) as [ec' outgoing].
  intros Hin. assert (E : g = f).
  { destruct Hin as [H | [H | [H | Hin]]];
      [discriminate | discriminate | congruence |].
    destruct (is_error ec'); cbn in Hin;
      repeat (destruct Hin as [H | Hin]; [discriminate |]); destruct Hin. }
  split; [exact E |]. exists threshold. split; [reflexivity | exact Hgt].
Qed.

Lemma handle_accept_reorganizes (env : collaborators) (this : organizer)
    (ec : code) (f g : fork) (flush : bool) :
  In (chain_reorganize g flush) (handle_accept env this ec f replying) ->
  g = f /\
  exists threshold,
    get_fork_difficulty env (difficulty f) (wrap_size_t (Fork.height f + 1)) =
      Some threshold /\
    threshold < difficulty f.
Proof.
  unfold handle_accept, replying.
  destruct (stopped this); [intros [H | []]; discriminate |].
  destruct (is_error ec); [intros [H | []]; discriminate |].
  intros [H | Hin]; [discriminate |].
  apply handle_connect_reorganizes in Hin. exact Hin.
Qed.

Lemma organize_reorganizes (env : collaborators) (this : organizer)
    (b : block) (g : fork) (flush : bool) :
  In (chain_reorganize g flush) (organize env this b replying) ->
  exists threshold,
    get_fork_difficulty env (difficulty g) (wrap_size_t (Fork.height g + 1)) =
      Some threshold /\
    threshold < difficulty g.
Proof.
  unfold organize, set_fork_height, complete.
  destruct (stopped this); [intros [H | []]; discriminate |].
  destruct (is_error (check env b)); [intros [H | [H | []]]; discriminate |].
  destruct (empty (get_path env b));
    [intros [H | [H | [H | []]]]; discriminate |].
  destruct (get_block_exists env (block_hash b));
    [intros [H | [H | [H | [H | []]]]]; discriminate |].
  destruct (get_height env (Fork.hash (get_path env b))) as [h |];
    [| intros [H | [H | [H | [H | [H | []]]]]]; discriminate].
  destruct (safe_add h (size (get_path env b))) as [s | e]; cbn [bind];
    [| intros [H | [H | [H | [H | [H | []]]]]]; discriminate].
  intros [H | [H | [H | [H | [H | Hin]]]]]; try discriminate.
  apply handle_accept_reorganizes in Hin. destruct Hin as [-> Hin]. exact Hin.
Qed.

(** C2: a fork whose difficulty is at most the threshold the store reports
    for the competing segment, equal included, is not reorganized onto.
    [handle_connect] adds the fork's top to the block pool and gives the
    handler [insufficient_work]. So does every organize sequence that gets
    as far as the comparison with that fork: after the check, the path, the
    duplicate test, the anchor lookup, accept, connect and the work query it
    adds the top to the pool and answers [insufficient_work], and the store
    is never asked to reorganize. And whatever else happens in a sequence,
    the store is never asked to reorganize onto that fork. *)
Theorem insufficient_work_keeps_store (env : collaborators) (this : organizer)
    (f : fork) (handler : result_handler) (threshold : Z) :
  stopped this = false ->
  get_fork_difficulty env (difficulty f) (wrap_size_t (Fork.height f + 1)) =
    Some threshold ->
  difficulty f <= threshold ->
  handle_connect env this success f handler =
    chain_get_fork_difficulty (difficulty f) (wrap_size_t (Fork.height f + 1)) ::
    pool_add (top f) :: handler insufficient_work /\
  replies (handle_connect env this success f replying) = [insufficient_work] /\
  existsb is_reorganize (handle_connect env this success f replying) = false /\
  (forall (this0 : organizer) (b : block) (h : Z),
     stopped this0 = false ->
     is_error (check env b) = false ->
     empty (get_path env b) = false ->
     get_block_exists env (block_hash b) = false ->
     get_height env (Fork.hash (get_path env b)) = Some h ->
     h + size (get_path env b) <= max_size_t ->
     set_height (get_path env b) h = f ->
     stopped (at_accept env this0) = false ->
     is_error (accept env f) = false ->
     at_connect env (at_accept env this0) = this ->
     is_error (connect env f) = false ->
     organize env this0 b handler =
       validator_check b :: pool_get_path b ::
       chain_get_block_exists (block_hash b) ::
       chain_get_height (Fork.hash (get_path env b)) ::
       validator_accept f :: validator_connect f ::
       chain_get_fork_difficulty (difficulty f)
                                 (wrap_size_t (Fork.height f + 1)) ::
       pool_add (top f) :: handler insufficient_work /\
     replies (organize env this0 b replying) = [insufficient_work] /\
     existsb is_reorganize (organize env this0 b replying) = false) /\
  (forall (this0 : organizer) (b : block) (flush : bool),
     ~ In (chain_reorganize f flush) (organize env this0 b replying)).
Proof.
  intros Hs Hq Hle.
  assert (E : forall (ec : code) (k : result_handler),
             is_error ec = false ->
             handle_connect env this ec f k =
             chain_get_fork_difficulty (difficulty f)
                                       (wrap_size_t (Fork.height f + 1)) ::
             pool_add (top f) :: k insufficient_work).
  { intros ec k Hec. unfold handle_connect. rewrite Hs, Hec, Hq.
    destruct (Z.leb_spec (difficulty f) threshold); [reflexivity | lia]. }
  split; [apply E; reflexivity |]. rewrite E by reflexivity.
  split; [reflexivity |]. split; [reflexivity |]. split.
  - intros this0 b h Hs0 Hc He Hx Hh Hfit Hf Hgo Ha Hthis Hk.
    assert (R : forall k : result_handler,
               organize env this0 b k =
               validator_check b :: pool_get_path b ::
               chain_get_block_exists (block_hash b) ::
               chain_get_height (Fork.hash (get_path env b)) ::
               validator_accept f :: validator_connect f ::
               chain_get_fork_difficulty (difficulty f)
                                         (wrap_size_t (Fork.height f + 1)) ::
               pool_add (top f) :: k insufficient_work).
    { intros k. rewrite (organize_reaches_accept env this0 b k h) by assumption.
      rewrite Hf. unfold handle_accept. rewrite Hgo, Ha, Hthis.
      rewrite (E (connect env f) k Hk). reflexivity. }
    split; [apply R |]. rewrite R. split; reflexivity.
  - intros this0 b flush Hin. apply organize_reorganizes in Hin.
    destruct Hin as (threshold' & Hq' & Hlt). rewrite Hq in Hq'.
    injection Hq' as <-. lia.
Qed.

Lemma insufficient_work_keeps_store_sample :
  handle_connect Sample.even_work Sample.started success Sample.anchored replying =
    [chain_get_fork_difficulty (difficulty Sample.anchored) 101;
     pool_add (Some Sample.block0); reply insufficient_work] /\
  organize Sample.even_work Sample.started Sample.block0 replying =
    [validator_check Sample.block0; pool_get_path Sample.block0;
     chain_get_block_exists 1000; chain_get_height 42;
     validator_accept Sample.anchored; validator_connect Sample.anchored;
     chain_get_fork_difficulty (difficulty Sample.anchored) 101;
     pool_add (Some Sample.block0); reply insufficient_work] /\
  replies (organize Sample.even_work Sample.started Sample.block0 replying) =
    [insufficient_work] /\
  existsb is_reorganize
          (organize Sample.even_work Sample.started Sample.block0 replying) = false.
Proof.
  destruct (insufficient_work_keeps_store
              Sample.even_work Sample.started Sample.anchored replying
              (difficulty Sample.anchored))
    as (Htrace & _ & _ & Hrun & _).
  - reflexivity.
  - reflexivity.
  - lia.
  - destruct (Hrun Sample.started Sample.block0 100)
      as (Horganize & Hreplies & Hnone).
    + reflexivity.
    + reflexivity.
    + reflexivity.
    + reflexivity.
    + reflexivity.
    + vm_compute. discriminate.
    + reflexivity.
    + reflexivity.
    + reflexivity.
    + reflexivity.
    + reflexivity.
    + split; [exact Htrace |]. split; [exact Horganize |].
      split; [exact Hreplies | exact Hnone].
Defined.

(** The whole sequence on a block whose fork claims exactly the work of the
    competing segment: the store is read three times and never written. *)
Example organize_even_work :
  organize Sample.even_work Sample.started Sample.block0 replying =
  [validator_check Sample.block0; pool_get_path Sample.block0;
   chain_get_block_exists 1000; chain_get_height 42;
   validator_accept (set_height (snd (push_front Fork.new Sample.block0)) 100);
   validator_connect (set_height (snd (push_front Fork.new Sample.block0)) 100);
   chain_get_fork_difficulty 4295032833 101;
   pool_add (Some Sample.block0); reply insufficient_work].
Proof. vm_compute. reflexivity. Qed.

(** C8: once the context-free check has passed, an empty path from the block
    pool, or a store that reports the block's hash as existing, makes
    [organize] give the handler [duplicate_block] and nothing more: the store
    is not asked for the anchor height, the validator is not asked to accept
    or connect, and nothing of the reorganization happens. *)
Theorem duplicate_block_stops (env : collaborators) (this : organizer)
    (b : block) (handler : result_handler) :
  stopped this = false ->
  is_error (check env b) = false ->
  empty (get_path env b) = true \/ get_block_exists env (block_hash b) = true ->
  organize env this b handler =
    validator_check b :: pool_get_path b ::
    (if empty (get_path env b) then []
     else [chain_get_block_exists (block_hash b)]) ++
    handler duplicate_block /\
  replies (organize env this b replying) = [duplicate_block] /\
  existsb proceeds (organize env this b replying) = false.
Proof.
  intros Hs Hc Hdup.
  assert (E : forall handler,
             organize env this b handler =
             validator_check b :: pool_get_path b ::
             (if empty (get_path env b) then []
              else [chain_get_block_exists (block_hash b)]) ++
             handler duplicate_block).
  { intros k. unfold organize, complete. rewrite Hs, Hc.
    destruct (empty (get_path env b)); [reflexivity |].
    destruct Hdup as [Hdup | Hdup]; [discriminate |].
    rewrite Hdup. reflexivity. }
  split; [apply E |]. rewrite E.
  destruct (empty (get_path env b)); split; reflexivity.
Qed.

Lemma duplicate_block_stops_sample :
  organize Sample.all_known Sample.started Sample.block0 replying =
  [validator_check Sample.block0; pool_get_path Sample.block0;
   chain_get_block_exists 1000; reply duplicate_block].
Proof.
  destruct (duplicate_block_stops Sample.all_known Sample.started Sample.block0
                                  replying)
    as (Htrace & _).
  - reflexivity.
  - reflexivity.
  - right. reflexivity.
  - exact Htrace.
Defined.

(** C9: an organizer is constructed stopped; a stopped organizer answers
    [organize] with [service_stopped] and does nothing else; and
    [handle_accept] and [handle_connect], the stages after accept and after
    connect, test the flag first and, finding it set, give the handler
    [service_stopped] without validating further, reading the store's work
    or reorganizing. *)
Theorem stopped_rejects (env : collaborators) (this : organizer) (s : settings)
    (b : block) (ec : code) (f : fork) (handler : result_handler) :
  stopped this = true ->
  stopped (new s) = true /\
  organize env (new s) b handler = handler service_stopped /\
  organize env this b handler = handler service_stopped /\
  handle_accept env this ec f handler = handler service_stopped /\
  handle_connect env this ec f handler = handler service_stopped /\
  organize env this b replying = [reply service_stopped] /\
  handle_accept env this ec f replying = [reply service_stopped] /\
  handle_connect env this ec f replying = [reply service_stopped].
Proof.
  intros Hs. unfold organize, handle_accept, handle_connect.
  rewrite Hs. repeat split; reflexivity.
Qed.

Lemma stopped_rejects_sample :
  organize Sample.even_work Sample.fresh Sample.block0 replying =
    [reply service_stopped] /\
  handle_accept Sample.even_work Sample.fresh success Sample.fork42 replying =
    [reply service_stopped] /\
  handle_connect Sample.even_work Sample.fresh success Sample.fork42 replying =
    [reply service_stopped].
Proof.
  destruct (stopped_rejects Sample.even_work Sample.fresh Sample.default_settings
                            Sample.block0 success Sample.fork42 replying)
    as (_ & _ & _ & _ & _ & H1 & H2 & H3).
  - reflexivity.
  - split; [exact H1 |]. split; [exact H2 | exact H3].
Defined.

(** * Further properties of the fork *)

Lemma linked_nth (bs : list block) (n : nat) (b0 b1 : block) :
  Shape.linked bs ->
  nth_error bs n = Some b0 -> nth_error bs (S n) = Some b1 ->
  previous_block_hash (block_header b1) = block_hash b0.
Proof.
  revert n. induction bs as [| b bs IH]; intros n Hl H0 H1.
  - destruct n; discriminate.
  - destruct Hl as [Hhead Htail]. destruct n as [| n].
    + cbn in H0, H1. injection H0 as <-.
      destruct bs as [| next rest]; [discriminate |].
      cbn in H1. injection H1 as <-. exact Hhead.
    + cbn in H0. apply (IH n Htail H0). exact H1.
Qed.

Lemma push_front_linked (f : fork) (b : block) :
  Shape.linked (blocks_ f) -> Shape.linked (blocks_ (snd (push_front f b))).
Proof.
  intros Hl. unfold push_front. destruct (blocks_ f) as [| front rest] eqn:E.
  - cbn. auto.
  - destruct (Z.eqb_spec (previous_block_hash (block_header front)) (block_hash b))
      as [Heq | Hne]; cbn [snd blocks_].
    + cbn. split; [exact Heq | exact Hl].
    + rewrite E. exact Hl.
Qed.

Lemma reachable_linked (f : fork) : Shape.reachable f -> Shape.linked (blocks_ f).
Proof.
  induction 1 as [| f h _ IH | f b _ IH].
  - exact I.
  - exact IH.
  - apply push_front_linked. exact IH.
Qed.

(** X1: in every fork built from the constructor by [set_height] and
    [push_front], whatever blocks were offered and in whatever order, each
    block's previous-block hash is the hash of the block just before it. *)
Theorem reachable_fork_is_chain (f : fork) (i : Z) (b0 b1 : block) :
  Shape.reachable f ->
  0 <= i ->
  block_at f i = Some b0 ->
  block_at f (i + 1) = Some b1 ->
  previous_block_hash (block_header b1) = block_hash b0.
Proof.
  intros Hr Hi H0 H1.
  apply (linked_nth (blocks_ f) (Z.to_nat i) b0 b1).
  - apply reachable_linked. exact Hr.
  - rewrite <- block_at_nat, Z2Nat.id by exact Hi. exact H0.
  - rewrite <- block_at_nat, Nat2Z.inj_succ, Z2Nat.id by exact Hi. exact H1.
Qed.

Lemma reachable_fork_is_chain_sample :
  previous_block_hash (block_header Sample.block1) = block_hash Sample.block0.
Proof.
  apply (reachable_fork_is_chain Sample.fork42 0).
  - apply Shape.reach_set_height. apply Shape.reach_push_front.
    apply Shape.reach_push_front. apply Shape.reach_new.
  - lia.
  - reflexivity.
  - reflexivity.
Defined.

Lemma back_nonempty (b : block) (bs : list block) :
  exists t, back (b :: bs) = Some t.
Proof.
  revert b. induction bs as [| b' bs IH]; intros b; [eexists; reflexivity |].
  destruct (IH b') as [t Ht]. exists t. exact Ht.
Qed.

Lemma back_cons (b c : block) (bs : list block) : back (b :: c :: bs) = back (c :: bs).
Proof. reflexivity. Qed.

Lemma back_nth (bs : list block) :
  back bs = nth_error bs (length bs - 1).
Proof.
  induction bs as [| b bs IH]; [reflexivity |].
  destruct bs as [| c bs]; [reflexivity |].
  rewrite back_cons, IH. cbn [length]. rewrite !Nat.sub_succ, !Nat.sub_0_r.
  reflexivity.
Qed.

(** X2: a successful [push_front] puts the block at index 0, moves every
    other block one index up, makes its previous-block hash the fork's hash,
    keeps the parent height, and keeps the top unless the fork was empty, in
    which case the block is the top. *)
Theorem push_front_shifts (f : fork) (b : block) :
  fst (push_front f b) = true ->
  block_at (snd (push_front f b)) 0 = Some b /\
  (forall i, 0 <= i -> block_at (snd (push_front f b)) (i + 1) = block_at f i) /\
  Fork.hash (snd (push_front f b)) = previous_block_hash (block_header b) /\
  Fork.height (snd (push_front f b)) = Fork.height f /\
  (empty f = false -> top (snd (push_front f b)) = top f) /\
  (empty f = true -> top (snd (push_front f b)) = Some b).
Proof.
  intros Hok.
  assert (E : snd (push_front f b) =
              {| height_ := height_ f; blocks_ := b :: blocks_ f |}).
  { revert Hok. unfold push_front. destruct (blocks_ f) as [| front rest].
    - reflexivity.
    - destruct (previous_block_hash (block_header front) =? block_hash b);
        [reflexivity | discriminate]. }
  rewrite E. split; [reflexivity |]. split; [| split; [| split; [| split]]].
  - intros i Hi. unfold block_at, size. cbn [blocks_ length].
    replace (Z.to_nat (i + 1)) with (S (Z.to_nat i)) by lia. cbn [nth_error].
    destruct (Z.ltb_spec (i + 1) (Z.of_nat (S (length (blocks_ f)))));
      destruct (Z.ltb_spec i (Z.of_nat (length (blocks_ f))));
      try reflexivity; lia.
  - reflexivity.
  - reflexivity.
  - unfold top, empty. cbn [blocks_]. destruct (blocks_ f); [discriminate |].
    reflexivity.
  - unfold top, empty. cbn [blocks_]. destruct (blocks_ f); [| discriminate].
    reflexivity.
Qed.

Lemma push_front_shifts_sample :
  block_at Sample.linked_fork 0 = Some Sample.block0 /\
  block_at Sample.linked_fork 1 = Some Sample.block1 /\
  Fork.hash Sample.linked_fork = 42 /\
  top Sample.linked_fork = Some Sample.block1.
Proof.
  destruct (push_front_shifts (snd (push_front Fork.new Sample.block1))
                              Sample.block0)
    as (H0 & Hshift & Hhash & _ & Htop & _); [reflexivity |].
  split; [exact H0 |]. split; [exact (Hshift 0 (Z.le_refl 0)) |].
  split; [exact Hhash |]. apply Htop. reflexivity.
Defined.

Lemma top_is_last (f : fork) :
  empty f = false ->
  exists t, top f = Some t /\ block_at f (size f - 1) = Some t.
Proof.
  unfold empty, top, empty. intros He.
  destruct (blocks_ f) as [| b bs] eqn:E; [discriminate |].
  destruct (back_nonempty b bs) as [t Ht]. exists t. split; [exact Ht |].
  replace (size f - 1) with (Z.of_nat (length (blocks_ f) - 1))
    by (unfold size; rewrite E; cbn [length]; lia).
  rewrite block_at_nat, E, <- back_nth. exact Ht.
Qed.

Lemma wrap_size_t_small (x : Z) : 0 <= x <= max_size_t -> wrap_size_t x = x.
Proof.
  intros H. unfold wrap_size_t. apply Z.mod_small.
  unfold max_size_t in H. lia.
Qed.

(** X3: for a fork that is not empty, whose parent height is a [size_t] and
    whose top height fits the type, [top_height] is parent height plus size,
    it is the height [height_at] gives the last index, and asking for the
    block hash at that height yields the hash of [top]. *)
Theorem top_height_reads_top (f : fork) (out_hash : hash_digest) :
  empty f = false ->
  0 <= height_ f ->
  height_ f + size f <= max_size_t ->
  top_height f = height_ f + size f /\
  height_at f (size f - 1) = Returns (top_height f) /\
  exists t,
    top f = Some t /\
    get_block_hash f out_hash (top_height f) = Returns (true, block_hash t).
Proof.
  intros He H0 Hfit.
  assert (Hsize : 1 <= size f).
  { unfold empty in He. unfold size. destruct (blocks_ f); [discriminate |].
    cbn [length]. lia. }
  assert (Htop : top_height f = height_ f + size f).
  { unfold top_height. rewrite He. apply wrap_size_t_small. lia. }
  split; [exact Htop |]. split.
  - rewrite height_at_fits by lia. f_equal. lia.
  - destruct (top_is_last f He) as (t & Ht & Hb). exists t. split; [exact Ht |].
    unfold get_block_hash. rewrite Htop.
    destruct (Z.leb_spec (height_ f + size f) (height_ f)); [lia |].
    rewrite index_of_above by lia. cbn [bind].
    replace (height_ f + size f - height_ f - 1) with (size f - 1) by lia.
    rewrite Hb. reflexivity.
Qed.

Lemma top_height_reads_top_sample :
  top_height Sample.fork42 = 44 /\
  get_block_hash Sample.fork42 0 44 = Returns (true, 1001).
Proof.
  destruct (top_height_reads_top Sample.fork42 0) as (Hh & _ & t & Ht & Hq).
  - reflexivity.
  - vm_compute. discriminate.
  - vm_compute. discriminate.
  - split; [exact Hh |]. vm_compute in Ht. injection Ht as <-. exact Hq.
Defined.

(** X4: the height [height_at] gives an index leads each header query back
    to the block at that index: for a block at index [i] whose height fits
    [size_t], the four queries at [height_at i] return its bits, version,
    timestamp and hash. *)
Theorem height_at_then_query (f : fork) (i : Z) (b : block)
    (out_bits out_version out_timestamp : Z) (out_hash : hash_digest) :
  0 <= i ->
  block_at f i = Some b ->
  height_ f + i + 1 <= max_size_t ->
  (h <- height_at f i ;; get_bits f out_bits h) =
    Returns (true, bits (block_header b)) /\
  (h <- height_at f i ;; get_version f out_version h) =
    Returns (true, version (block_header b)) /\
  (h <- height_at f i ;; get_timestamp f out_timestamp h) =
    Returns (true, timestamp (block_header b)) /\
  (h <- height_at f i ;; get_block_hash f out_hash h) =
    Returns (true, block_hash b).
Proof.
  intros Hi Hb Hfit. rewrite height_at_fits by exact Hfit. cbn [bind].
  unfold get_bits, get_version, get_timestamp, get_block_hash.
  destruct (Z.leb_spec (height_ f + i + 1) (height_ f)); [lia |].
  rewrite index_of_above by lia. cbn [bind].
  replace (height_ f + i + 1 - height_ f - 1) with i by lia.
  rewrite Hb. repeat split; reflexivity.
Qed.

Lemma height_at_then_query_sample :
  (h <- height_at Sample.fork42 0 ;; get_block_hash Sample.fork42 0 h) =
    Returns (true, 1000).
Proof.
  destruct (height_at_then_query Sample.fork42 0 Sample.block0 0 0 0 0)
    as (_ & _ & _ & H).
  - lia.
  - reflexivity.
  - vm_compute. discriminate.
  - exact H.
Defined.

(** X5: [index_of] fails exactly on heights at or below the parent height,
    always with the underflow error: at the parent height itself the first
    subtraction succeeds and the second fails, below it the first fails. *)
Theorem index_of_fails_below (f : fork) (h : Z) :
  (index_of f h = Throws underflow_error <-> h <= height_ f) /\
  (forall e, index_of f h = Throws e -> e = underflow_error) /\
  (h = height_ f -> safe_subtract h (height_ f) = Returns 0) /\
  (h < height_ f -> safe_subtract h (height_ f) = Throws underflow_error).
Proof.
  split; [| split; [| split]].
  - split.
    + intros H. destruct (Z.le_gt_cases h (height_ f)) as [Hle | Hgt];
        [exact Hle |].
      rewrite index_of_above in H by lia. discriminate.
    + apply index_of_not_above.
  - intros e H. destruct (Z.le_gt_cases h (height_ f)) as [Hle | Hgt].
    + rewrite index_of_not_above in H by exact Hle. congruence.
    + rewrite index_of_above in H by lia. discriminate.
  - intros ->. rewrite safe_subtract_returns by lia. f_equal. lia.
  - apply safe_subtract_throws.
Qed.

(** X6: [block_at] yields a block exactly for the indexes below the size;
    in particular it yields none at any index of an empty fork. *)
Theorem block_at_bounds (f : fork) (i : Z) :
  0 <= i ->
  (block_at f i = None <-> size f <= i) /\
  ((exists b, block_at f i = Some b) <-> i < size f) /\
  (empty f = true -> block_at f i = None).
Proof.
  intros Hi. split; [| split].
  - split.
    + intros H. destruct (Z.le_gt_cases (size f) i) as [Hle | Hgt]; [exact Hle |].
      destruct (block_at_inside f i) as [b Hb]; [lia | congruence].
    + apply block_at_outside.
  - split.
    + intros [b Hb]. destruct (Z.le_gt_cases (size f) i) as [Hle | Hgt]; [| lia].
      rewrite block_at_outside in Hb by exact Hle. discriminate.
    + intros H. apply block_at_inside. lia.
  - intros He. apply block_at_outside. unfold empty in He. unfold size.
    destruct (blocks_ f); [cbn; lia | discriminate].
Qed.

Lemma block_at_bounds_sample :
  block_at Fork.new 0 = None /\ block_at Fork.new 42 = None /\
  block_at Sample.fork42 2 = None.
Proof.
  destruct (block_at_bounds Fork.new 0) as (_ & _ & H0); [lia |].
  destruct (block_at_bounds Fork.new 42) as (_ & _ & H42); [lia |].
  destruct (block_at_bounds Sample.fork42 2) as (H2 & _); [lia |].
  split; [apply H0; reflexivity |]. split; [apply H42; reflexivity |].
  apply H2. vm_compute. discriminate.
Defined.

Lemma difficulty_range (f : fork) : 0 <= difficulty f < 2 ^ 256.
Proof.
  unfold difficulty. rewrite difficulty_loop by (split; [lia | reflexivity]).
  apply wrap_uint256_range.
Qed.

(** X7: a successful [push_front] adds the block's claimed work to the
    fork's difficulty, in [uint256_t]; a failed one and [set_height] leave
    the difficulty as it was; and the difficulty is always a 256-bit
    number. *)
Theorem difficulty_grows_with_push (f : fork) (b : block) (h : Z) :
  (fst (push_front f b) = true ->
     difficulty (snd (push_front f b)) =
     wrap_uint256 (difficulty f + block_difficulty b)) /\
  (fst (push_front f b) = false ->
     difficulty (snd (push_front f b)) = difficulty f) /\
  difficulty (set_height f h) = difficulty f /\
  0 <= difficulty f < 2 ^ 256.
Proof.
  split; [| split; [| split]].
  - intros Hok.
    assert (E : blocks_ (snd (push_front f b)) = b :: blocks_ f).
    { revert Hok. unfold push_front. destruct (blocks_ f) as [| front rest].
      - reflexivity.
      - destruct (previous_block_hash (block_header front) =? block_hash b);
          [reflexivity | discriminate]. }
    unfold difficulty. rewrite E.
    rewrite !difficulty_loop by (split; [lia | reflexivity]).
    cbn [map Stated.sum fold_right].
    rewrite Z.add_comm, wrap_uint256_add_l. f_equal.
    unfold Stated.sum. lia.
  - intros Hno.
    assert (E : snd (push_front f b) = f).
    { revert Hno. unfold push_front. destruct (blocks_ f) as [| front rest].
      - discriminate.
      - destruct (previous_block_hash (block_header front) =? block_hash b);
          [discriminate | reflexivity]. }
    rewrite E. reflexivity.
  - reflexivity.
  - apply difficulty_range.
Qed.

Lemma difficulty_grows_with_push_sample :
  difficulty Sample.linked_fork =
  wrap_uint256 (difficulty (snd (push_front Fork.new Sample.block1)) +
                block_difficulty Sample.block0).
Proof.
  destruct (difficulty_grows_with_push (snd (push_front Fork.new Sample.block1))
                                       Sample.block0 0) as (H & _).
  apply H. reflexivity.
Defined.

(** ** Further properties of the populate queries *)

Lemma count_if_nonneg {A : Type} (p : A -> bool) (l : list A) : 0 <= count_if p l.
Proof. unfold count_if. lia. Qed.

Lemma count_if_positive {A : Type} (p : A -> bool) (l : list A) (a : A) :
  In a l -> p a = true -> 1 <= count_if p l.
Proof.
  intros Hin Hp. unfold count_if.
  assert (Hf : In a (filter p l)) by (apply filter_In; auto).
  destruct (filter p l); [destruct Hf | cbn [length]; lia].
Qed.

Lemma sum_nonneg (l : list Z) : (forall x, In x l -> 0 <= x) -> 0 <= Stated.sum l.
Proof.
  induction l as [| x l IH]; intros H; cbn; [lia |].
  assert (0 <= x) by (apply H; left; reflexivity).
  assert (0 <= Stated.sum l) by (apply IH; intros y Hy; apply H; right; exact Hy).
  unfold Stated.sum in *. lia.
Qed.

Lemma sum_at_least (l : list Z) (x : Z) :
  (forall y, In y l -> 0 <= y) -> In x l -> x <= Stated.sum l.
Proof.
  induction l as [| y l IH]; intros Hpos Hin; [destruct Hin |].
  assert (0 <= y) by (apply Hpos; left; reflexivity).
  assert (Hrest : 0 <= Stated.sum l)
    by (apply sum_nonneg; intros z Hz; apply Hpos; right; exact Hz).
  cbn. destruct Hin as [-> | Hin].
  - unfold Stated.sum in *. lia.
  - assert (x <= Stated.sum l)
      by (apply IH; [intros z Hz; apply Hpos; right; exact Hz | exact Hin]).
    unfold Stated.sum in *. lia.
Qed.

Lemma occurrences_nonneg (tx : transaction) (f : fork) : 0 <= Stated.occurrences tx f.
Proof.
  unfold Stated.occurrences. apply sum_nonneg. intros x Hx.
  apply in_map_iff in Hx. destruct Hx as (b & <- & _). apply count_if_nonneg.
Qed.

(** X8: as long as the number of occurrences fits [size_t], [populate_tx]
    sets the duplicate flag exactly when the transaction's hash occurs more
    than once among the transactions of the fork's blocks, and its assertion
    holds for every transaction that is in one of the fork's blocks. *)
Theorem populate_tx_flags_duplicates (f : fork) (tx : transaction) :
  Stated.occurrences tx f <= max_size_t ->
  populate_tx_count f tx = Stated.occurrences tx f /\
  populate_tx f tx = (Stated.occurrences tx f >? 1) /\
  ((exists b, In b (blocks_ f) /\ In tx (transactions b)) ->
     populate_tx_asserted f tx = true).
Proof.
  intros Hfit.
  assert (E : populate_tx_count f tx = Stated.occurrences tx f).
  { rewrite populate_tx_counts. apply wrap_size_t_small.
    split; [apply occurrences_nonneg | exact Hfit]. }
  split; [exact E |]. split.
  - unfold populate_tx. rewrite E. reflexivity.
  - intros (b & Hb & Htx). unfold populate_tx_asserted. rewrite E.
    assert (H1 : 1 <= count_if (fun block_tx => tx_hash block_tx =? tx_hash tx)
                               (transactions b)).
    { apply (count_if_positive _ _ tx Htx). apply Z.eqb_refl. }
    assert (H2 : count_if (fun block_tx => tx_hash block_tx =? tx_hash tx)
                          (transactions b) <= Stated.occurrences tx f).
    { unfold Stated.occurrences. apply sum_at_least.
      - intros y Hy. apply in_map_iff in Hy. destruct Hy as (b' & <- & _).
        apply count_if_nonneg.
      - apply in_map_iff. exists b. split; [reflexivity | exact Hb]. }
    destruct (Z.gtb_spec (Stated.occurrences tx f) 0); [reflexivity | lia].
Qed.

Lemma populate_tx_flags_duplicates_sample :
  populate_tx Sample.linked_fork Sample.spender = false /\
  populate_tx_asserted Sample.linked_fork Sample.spender = true.
Proof.
  destruct (populate_tx_flags_duplicates Sample.linked_fork Sample.spender)
    as (_ & Hflag & Hassert).
  - vm_compute. discriminate.
  - split; [rewrite Hflag; reflexivity |].
    apply Hassert. exists Sample.block0. split; [left; reflexivity |].
    right. left. reflexivity.
Defined.

Lemma wrap_size_t_idempotent (x : Z) : wrap_size_t (wrap_size_t x) = wrap_size_t x.
Proof. unfold wrap_size_t. apply Z.mod_mod. discriminate. Qed.

Lemma wrap_size_t_scale (x k y : Z) :
  wrap_size_t (wrap_size_t x * k + y) = wrap_size_t (x * k + y).
Proof.
  unfold wrap_size_t.
  rewrite Z.add_mod, Z.mul_mod_idemp_l, <- Z.add_mod by discriminate.
  reflexivity.
Qed.

Lemma outer_loop (outpoint : output_point) (bs : list block) (total : Z) :
  wrap_size_t total = total ->
  fold_left (outer outpoint) bs total =
  wrap_size_t (total * 2 ^ Z.of_nat (length bs) +
               Shape.doubling_sum (map (Stated.spends_in_block outpoint) bs)).
Proof.
  revert total. induction bs as [| b bs IH]; intros total Hw.
  - cbn. rewrite Z.mul_1_r, Z.add_0_r. symmetry. exact Hw.
  - cbn [fold_left map Shape.doubling_sum length].
    rewrite outer_doubles, IH by apply wrap_size_t_idempotent.
    rewrite wrap_size_t_scale. f_equal.
    rewrite length_map, Nat2Z.inj_succ, Z.pow_succ_r by lia. ring.
Qed.

(** X9: what [populate_spent] counts. The count is not the number of
    spending inputs but, modulo 2^64, the sum over the blocks of the number
    of spending inputs of each block times 2 to the number of blocks after
    it; [spent] and [confirmed] are both set to whether that is above 1, and
    the height and cache slots are left alone. *)
Theorem populate_spent_weighs_blocks (f : fork) (outpoint : output_point) :
  populate_spent_count f outpoint =
    wrap_size_t (Shape.doubling_sum
                   (map (Stated.spends_in_block outpoint) (blocks_ f))) /\
  spent (populate_spent f outpoint) = (populate_spent_count f outpoint >? 1) /\
  confirmed (populate_spent f outpoint) = spent (populate_spent f outpoint) /\
  Chain.height (populate_spent f outpoint) = Chain.height (validation outpoint) /\
  cache (populate_spent f outpoint) = cache (validation outpoint).
Proof.
  split; [| repeat split].
  unfold populate_spent_count. rewrite outer_loop by reflexivity.
  f_equal.
Qed.

Lemma doubling_sum_last (zeros : list Z) (c : Z) :
  (forall z, In z zeros -> z = 0) -> Shape.doubling_sum (zeros ++ [c]) = c.
Proof.
  induction zeros as [| z zeros IH]; intros H; cbn.
  - lia.
  - rewrite (H z) by (left; reflexivity).
    rewrite IH by (intros y Hy; apply H; right; exact Hy). lia.
Qed.

Lemma sum_last (zeros : list Z) (c : Z) :
  (forall z, In z zeros -> z = 0) -> Stated.sum (zeros ++ [c]) = c.
Proof.
  induction zeros as [| z zeros IH]; intros H; cbn.
  - lia.
  - rewrite (H z) by (left; reflexivity). unfold Stated.sum in IH.
    rewrite IH by (intros y Hy; apply H; right; exact Hy). lia.
Qed.

Lemma spends_in_block_nonneg (outpoint : output_point) (b : block) :
  0 <= Stated.spends_in_block outpoint b.
Proof.
  unfold Stated.spends_in_block. apply sum_nonneg. intros x Hx.
  apply in_map_iff in Hx. destruct Hx as (tx & <- & _). apply count_if_nonneg.
Qed.

(** X10: when no block below the top spends the outpoint, which is how the
    validator meets an outpoint first spent by the block it validates,
    [populate_spent] is exact: the count is the number of spending inputs in
    the fork and [spent] says whether there is more than one. *)
Theorem populate_spent_exact_at_top (earlier : list block) (t : block) (h : Z)
    (outpoint : output_point) :
  (forall b, In b earlier -> Stated.spends_in_block outpoint b = 0) ->
  Stated.spends_in_block outpoint t <= max_size_t ->
  populate_spent_count {| height_ := h; blocks_ := earlier ++ [t] |} outpoint =
    Stated.spends_in_fork outpoint {| height_ := h; blocks_ := earlier ++ [t] |} /\
  spent (populate_spent {| height_ := h; blocks_ := earlier ++ [t] |} outpoint) =
    (Stated.spends_in_fork outpoint {| height_ := h; blocks_ := earlier ++ [t] |}
     >? 1).
Proof.
  intros Hzero Hfit.
  assert (Hz : forall z, In z (map (Stated.spends_in_block outpoint) earlier) ->
                         z = 0).
  { intros z Hin. apply in_map_iff in Hin. destruct Hin as (b & <- & Hb).
    apply Hzero. exact Hb. }
  assert (E : populate_spent_count {| height_ := h; blocks_ := earlier ++ [t] |}
                                   outpoint =
              Stated.spends_in_fork outpoint
                                    {| height_ := h; blocks_ := earlier ++ [t] |}).
  { unfold populate_spent_count, Stated.spends_in_fork. cbn [blocks_].
    rewrite outer_loop by reflexivity. rewrite map_app. cbn [map].
    rewrite doubling_sum_last, sum_last by exact Hz.
    cbn. apply wrap_size_t_small.
    split; [apply spends_in_block_nonneg | exact Hfit]. }
  split; [exact E |]. unfold populate_spent. cbn [spent]. rewrite E. reflexivity.
Qed.

Lemma populate_spent_exact_at_top_sample :
  spent (populate_spent {| height_ := 42;
                           blocks_ := [Sample.block1] ++ [Sample.block0] |}
                        Sample.outpoint) = false.
Proof.
  destruct (populate_spent_exact_at_top [Sample.block1] Sample.block0 42
                                        Sample.outpoint) as (_ & H).
  - intros b [<- | []]. reflexivity.
  - vm_compute. discriminate.
  - rewrite H. reflexivity.
Defined.

Lemma first_match_index (f : fork) (outpoint : output_point)
    (index position : nat) (tx : transaction) :
  Stated.first_match f outpoint index position tx ->
  Z.of_nat index < size f.
Proof.
  intros (b & Hb & _).
  assert (index < length (blocks_ f))%nat
    by (apply nth_error_Some; rewrite Hb; discriminate).
  unfold size. lia.
Qed.

(** X11: [populate_prevout] never invents an output. Whenever it leaves a
    valid cache, that cache is the output the outpoint designates in the
    first matching transaction, no exception was raised, and the height is
    that block's height if the transaction is first in its block and
    [not_specified] otherwise; in every other case both slots are reset. The
    [spent] and [confirmed] slots are never changed. *)
Theorem populate_prevout_cache_is_found (f : fork) (outpoint : output_point) :
  spent (fst (populate_prevout f outpoint)) = spent (validation outpoint) /\
  confirmed (fst (populate_prevout f outpoint)) = confirmed (validation outpoint) /\
  (is_valid (cache (fst (populate_prevout f outpoint))) = true ->
     exists (index position : nat) (tx : transaction),
       Stated.first_match f outpoint index position tx /\
       is_null outpoint = false /\
       populate_prevout f outpoint =
         (Stated.resolved outpoint position (height_ f + Z.of_nat index + 1)
                          (Stated.designated outpoint tx), None)) /\
  (is_valid (cache (fst (populate_prevout f outpoint))) = false ->
     fst (populate_prevout f outpoint) = Stated.reset outpoint).
Proof.
  unfold populate_prevout.
  destruct (is_null outpoint) eqn:Hnull.
  { cbn [fst cache spent confirmed]. repeat split; discriminate. }
  destruct (first_match_or_none f outpoint)
    as [(index & position & tx & Hfirst) | Hnone].
  - rewrite (get_output_finds f outpoint index position tx Hfirst).
    destruct (Z.le_gt_cases (height_ f + Z.of_nat index + 1) max_size_t)
      as [Hfit | Hover].
    + rewrite height_at_fits by exact Hfit.
      cbn [bind found_out found_position found_height].
      destruct (is_valid (Stated.designated outpoint tx)) eqn:Hvalid; cbn [negb].
      * assert (E : (if Z.of_nat position =? 0
                     then ({| spent := spent (validation outpoint);
                              confirmed := confirmed (validation outpoint);
                              Chain.height := height_ f + Z.of_nat index + 1;
                              cache := Stated.designated outpoint tx |}, None)
                     else ({| spent := spent (validation outpoint);
                              confirmed := confirmed (validation outpoint);
                              Chain.height := not_specified;
                              cache := Stated.designated outpoint tx |}, None)) =
                    (Stated.resolved outpoint position
                                     (height_ f + Z.of_nat index + 1)
                                     (Stated.designated outpoint tx),
                     @None exception)).
        { destruct position; reflexivity. }
        cbn [spent confirmed cache Chain.height]. rewrite E.
        cbn [fst Stated.resolved spent confirmed cache].
        split; [reflexivity |]. split; [reflexivity |]. split.
        -- intros _. exists index, position, tx. auto.
        -- rewrite Hvalid. discriminate.
      * cbn [fst cache spent confirmed].
        split; [reflexivity |]. split; [reflexivity |].
        split; [discriminate | reflexivity].
    + rewrite height_at_overflows by lia. cbn [bind fst cache spent confirmed].
      split; [reflexivity |]. split; [reflexivity |].
      split; [discriminate | reflexivity].
  - rewrite (get_output_none f outpoint Hnone).
    cbn [found_out found_default negb fst cache spent confirmed].
    replace (is_valid output_default) with false by reflexivity.
    cbn [negb fst cache spent confirmed].
    split; [reflexivity |]. split; [reflexivity |].
    split; [discriminate | reflexivity].
Qed.

(** X12: when the fork's top height fits [size_t], as the organizer's anchor
    guard ensures, [populate_prevout] does not throw, whatever the
    outpoint. *)
Theorem populate_prevout_returns (f : fork) (outpoint : output_point) :
  height_ f + size f <= max_size_t ->
  snd (populate_prevout f outpoint) = None.
Proof.
  intros Hfit. unfold populate_prevout.
  destruct (is_null outpoint); [reflexivity |].
  destruct (first_match_or_none f outpoint)
    as [(index & position & tx & Hfirst) | Hnone].
  - rewrite (get_output_finds f outpoint index position tx Hfirst).
    pose proof (first_match_index f outpoint index position tx Hfirst).
    rewrite height_at_fits by lia.
    cbn [bind found_out found_position].
    destruct (negb (is_valid (Stated.designated outpoint tx))); [reflexivity |].
    destruct (Z.of_nat position =? 0); reflexivity.
  - rewrite (get_output_none f outpoint Hnone). reflexivity.
Qed.

Lemma populate_prevout_returns_sample :
  snd (populate_prevout Sample.fork42 Sample.spender_point) = None.
Proof.
  apply (populate_prevout_returns Sample.fork42 Sample.spender_point).
  vm_compute. discriminate.
Defined.

(** * Further properties of the organizer *)

Lemma top_of_anchored (f : fork) (h : Z) :
  empty f = false -> top (set_height f h) = None -> False.
Proof.
  unfold top, empty. cbn [set_height blocks_]. intros He.
  destruct (blocks_ f) as [| b bs]; [discriminate |].
  destruct (back_nonempty b bs) as [t Ht]. rewrite Ht. discriminate.
Qed.

(** Splits the goal on every test the organize sequence makes. *)
Ltac organize_cases :=
  unfold organize, set_fork_height, complete, handle_accept, handle_connect,
    handle_reorganized, notify_reorganize, replying, bind, safe_add;
  repeat match goal with
         | |- context [if ?c then _ else _] =>
             lazymatch c with
             | context [if _ then _ else _] => fail
             | context [match _ with _ => _ end] => fail
             | _ => destruct c eqn:?
             end
         | |- context [match ?x with _ => _ end] =>
             lazymatch x with
             | context [if _ then _ else _] => fail
             | context [match _ with _ => _ end] => fail
             | _ => destruct x eqn:?
             end
         end;
  try (exfalso; eapply top_of_anchored; eassumption).

(** X13: every organize sequence gives the caller's handler its code exactly
    once, with one exception: when the anchor height plus the fork's size
    overflows, the guard of [set_fork_height] throws and the handler is never
    called. The sequence never dereferences a missing top block. *)
Theorem organize_replies_once (env : collaborators) (this : organizer)
    (b : block) :
  (length (replies (organize env this b replying)) = 1%nat /\
   existsb Shape.is_raise (organize env this b replying) = false \/
   replies (organize env this b replying) = [] /\
   In (raise overflow_error) (organize env this b replying) /\
   exists h, get_height env (Fork.hash (get_path env b)) = Some h /\
             max_size_t < h + size (get_path env b)) /\
  ~ In null_dereference (organize env this b replying).
Proof.
  split.
  - organize_cases; cbn;
      first [ left; split; reflexivity
            | right; split; [reflexivity |]; split; [auto 10 |];
              eexists; split; [reflexivity |];
              match goal with H : (_ >? _) = true |- _ =>
                apply Z.gtb_lt in H; unfold max_size_t in H; lia end ].
  - organize_cases; cbn; intros Hin;
      repeat (destruct Hin as [Hin | Hin]; [discriminate |]); exact Hin.
Qed.

Example organize_replies_sample :
  replies (organize Sample.more_work Sample.started Sample.block0 replying) =
    [success] /\
  replies (organize Sample.at_the_limit Sample.started Sample.block0 replying) = [].
Proof. split; reflexivity. Qed.

(** X14: the store is asked to reorganize only at the end of a sequence in
    which nothing was skipped: the organizer was running at all three
    stages, the block passed the context-free check and was not known, its
    path was not empty and was anchored at a height the store gave, and both
    accept and connect succeeded on the very fork that is handed to the
    store. *)
Theorem reorganize_follows_validation (env : collaborators) (this : organizer)
    (b : block) (g : fork) (flush : bool) :
  In (chain_reorganize g flush) (organize env this b replying) ->
  stopped this = false /\
  stopped (at_accept env this) = false /\
  stopped (at_connect env (at_accept env this)) = false /\
  is_error (check env b) = false /\
  empty (get_path env b) = false /\
  get_block_exists env (block_hash b) = false /\
  (exists h, get_height env (Fork.hash (get_path env b)) = Some h /\
             h + size (get_path env b) <= max_size_t /\
             g = set_height (get_path env b) h) /\
  is_error (accept env g) = false /\
  is_error (connect env g) = false /\
  flush = flush_reorganizations_ (at_connect env (at_accept env this)).
Proof.
  organize_cases; cbn; intros Hin;
    repeat (destruct Hin as [Hin | Hin]; [try discriminate |]);
    try (exfalso; exact Hin);
    injection Hin as <- <-;
    repeat split; try assumption;
    (eexists; split; [reflexivity |]; split; [| reflexivity];
     match goal with H : (_ >? _) = false |- _ =>
       rewrite Z.gtb_ltb in H; apply Z.ltb_ge in H;
       unfold max_size_t in H; lia end).
Qed.

Lemma reorganize_follows_validation_sample :
  is_error (accept Sample.more_work Sample.anchored) = false /\
  is_error (connect Sample.more_work Sample.anchored) = false.
Proof.
  destruct (reorganize_follows_validation Sample.more_work Sample.started
              Sample.block0 Sample.anchored false)
    as (_ & _ & _ & _ & _ & _ & _ & Ha & Hc & _).
  - vm_compute. do 8 right. left. reflexivity.
  - split; [exact Ha | exact Hc].
Defined.

(** X15: subscribers are told of a reorganization only with [success], only
    in a sequence whose store write succeeded and whose caller is answered
    [success], and they are given the fork's parent height, the fork's
    blocks and the blocks the store handed back. *)
Theorem notification_means_success (env : collaborators) (this : organizer)
    (b : block) (ec : code) (fork_height : Z) (incoming outgoing : list block) :
  In (subscriber_invoke ec fork_height incoming outgoing)
     (organize env this b replying) ->
  ec = success /\
  replies (organize env this b replying) = [success] /\
  exists g flush,
    In (chain_reorganize g flush) (organize env this b replying) /\
    is_error (fst (reorganize env g flush)) = false /\
    fork_height = Fork.height g /\
    incoming = blocks g /\
    outgoing = snd (reorganize env g flush).
Proof.
  organize_cases; cbn; intros Hin;
    repeat (destruct Hin as [Hin | Hin]; [try discriminate |]);
    try (exfalso; exact Hin);
    injection Hin as <- <- <- <-;
    (split; [reflexivity |]; split; [reflexivity |];
     eexists; eexists; split; [do 8 right; left; reflexivity |];
     match goal with H : reorganize _ _ _ = _ |- _ => rewrite H end;
     repeat split; assumption).
Qed.

Lemma notification_means_success_sample :
  replies (organize Sample.more_work Sample.started Sample.block0 replying) =
    [success].
Proof.
  destruct (notification_means_success Sample.more_work Sample.started
              Sample.block0 success 100 [Sample.block0] [Sample.heavy0])
    as (_ & H & _).
  - vm_compute. do 12 right. left. reflexivity.
  - exact H.
Defined.


(** What [organize] does up to the anchor lookup, for a block that is new. *)
Lemma organize_reaches_anchor (env : collaborators) (this : organizer)
    (b : block) (handler : result_handler) :
  stopped this = false ->
  is_error (check env b) = false ->
  empty (get_path env b) = false ->
  get_block_exists env (block_hash b) = false ->
  organize env this b handler =
  validator_check b :: pool_get_path b ::
  chain_get_block_exists (block_hash b) ::
  match set_fork_height env (get_path env b) with
  | (calls, Throws e) => calls ++ [raise e]
  | (calls, Returns (false, _)) => calls ++ handler orphan_block
  | (calls, Returns (true, f')) =>
      calls ++ validator_accept f' ::
      handle_accept env (at_accept env this) (accept env f') f' handler
  end.
Proof.
  intros Hs Hc He Hx. unfold organize, complete. rewrite Hs, Hc, He, Hx.
  reflexivity.
Qed.

(** X16: a new block whose path starts at a parent the store does not know
    is answered [orphan_block] right after the anchor lookup: the validator
    is asked for nothing beyond the context-free check and neither pool nor
    store is changed. *)
Theorem unanchored_is_orphan (env : collaborators) (this : organizer)
    (b : block) (handler : result_handler) :
  stopped this = false ->
  is_error (check env b) = false ->
  empty (get_path env b) = false ->
  get_block_exists env (block_hash b) = false ->
  get_height env (Fork.hash (get_path env b)) = None ->
  organize env this b handler =
    validator_check b :: pool_get_path b ::
    chain_get_block_exists (block_hash b) ::
    chain_get_height (Fork.hash (get_path env b)) :: handler orphan_block /\
  replies (organize env this b replying) = [orphan_block] /\
  existsb is_reorganize (organize env this b replying) = false /\
  existsb Shape.is_pool_update (organize env this b replying) = false.
Proof.
  intros Hs Hc He Hx Hh.
  assert (E : forall handler,
             organize env this b handler =
             validator_check b :: pool_get_path b ::
             chain_get_block_exists (block_hash b) ::
             chain_get_height (Fork.hash (get_path env b)) ::
             handler orphan_block).
  { intros k. rewrite organize_reaches_anchor by assumption.
    unfold set_fork_height. rewrite Hh. reflexivity. }
  split; [apply E |]. rewrite E. repeat split.
Qed.

Lemma unanchored_is_orphan_sample :
  organize Sample.even_work Sample.started Sample.block1 replying =
  [validator_check Sample.block1; pool_get_path Sample.block1;
   chain_get_block_exists 1001; chain_get_height 1000; reply orphan_block].
Proof.
  destruct (unanchored_is_orphan Sample.even_work Sample.started Sample.block1
                                 replying) as (H & _).
  - reflexivity.
  - reflexivity.
  - reflexivity.
  - reflexivity.
  - reflexivity.
  - exact H.
Defined.

(** X17: when the anchor height the store gives plus the size of the fork
    does not fit [size_t], the overflow guard of [set_fork_height] throws out
    of [organize]: the caller's handler is never called, whatever it is, and
    the validator is not asked to accept. *)
Theorem anchor_overflow_throws (env : collaborators) (this : organizer)
    (b : block) (handler : result_handler) (h : Z) :
  stopped this = false ->
  is_error (check env b) = false ->
  empty (get_path env b) = false ->
  get_block_exists env (block_hash b) = false ->
  get_height env (Fork.hash (get_path env b)) = Some h ->
  max_size_t < h + size (get_path env b) ->
  organize env this b handler =
  [validator_check b; pool_get_path b; chain_get_block_exists (block_hash b);
   chain_get_height (Fork.hash (get_path env b)); raise overflow_error].
Proof.
  intros Hs Hc He Hx Hh Hover.
  rewrite organize_reaches_anchor by assumption.
  unfold set_fork_height. rewrite Hh, safe_add_throws by exact Hover.
  reflexivity.
Qed.

Lemma anchor_overflow_throws_sample :
  organize Sample.at_the_limit Sample.started Sample.block0 replying =
  [validator_check Sample.block0; pool_get_path Sample.block0;
   chain_get_block_exists 1000; chain_get_height 42; raise overflow_error].
Proof.
  apply (anchor_overflow_throws Sample.at_the_limit Sample.started Sample.block0
                                replying max_size_t); reflexivity.
Defined.

(** X18: a failure of the validator ends the sequence with the validator's
    own code and nothing after it: a failed context-free check before the
    block pool is asked for the path, a failed accept before connect, a
    failed connect before the store is asked for the competing work. *)
Theorem validation_failure_is_passed_on (env : collaborators) (this : organizer)
    (b : block) (h : Z) :
  stopped this = false ->
  (is_error (check env b) = true ->
     organize env this b replying = [validator_check b; reply (check env b)]) /\
  (is_error (check env b) = false ->
   empty (get_path env b) = false ->
   get_block_exists env (block_hash b) = false ->
   get_height env (Fork.hash (get_path env b)) = Some h ->
   h + size (get_path env b) <= max_size_t ->
   stopped (at_accept env this) = false ->
   (is_error (accept env (set_height (get_path env b) h)) = true ->
      organize env this b replying =
      [validator_check b; pool_get_path b; chain_get_block_exists (block_hash b);
       chain_get_height (Fork.hash (get_path env b));
       validator_accept (set_height (get_path env b) h);
       reply (accept env (set_height (get_path env b) h))]) /\
   (is_error (accept env (set_height (get_path env b) h)) = false ->
    stopped (at_connect env (at_accept env this)) = false ->
    is_error (connect env (set_height (get_path env b) h)) = true ->
      organize env this b replying =
      [validator_check b; pool_get_path b; chain_get_block_exists (block_hash b);
       chain_get_height (Fork.hash (get_path env b));
       validator_accept (set_height (get_path env b) h);
       validator_connect (set_height (get_path env b) h);
       reply (connect env (set_height (get_path env b) h))])).
Proof.
  intros Hs. split.
  - intros Hc. unfold organize. rewrite Hs, Hc. reflexivity.
  - intros Hc He Hx Hh Hfit Hgo.
    rewrite (organize_reaches_accept env this b replying h) by assumption.
    unfold handle_accept, handle_connect. rewrite Hgo. split.
    + intros Ha. rewrite Ha. reflexivity.
    + intros Ha Hgo' Hk. rewrite Ha, Hgo', Hk. reflexivity.
Qed.

Lemma validation_failure_is_passed_on_sample :
  organize Sample.rejecting Sample.started Sample.block0 replying =
  [validator_check Sample.block0; reply (other_error 1)].
Proof.
  destruct (validation_failure_is_passed_on Sample.rejecting Sample.started
                                            Sample.block0 0) as (H & _).
  - reflexivity.
  - apply H. reflexivity.
Defined.

(** X19: the commit. With the organizer running, connect successful, the
    fork's difficulty strictly above the threshold and a store write that
    succeeds, [handle_connect] marks the top block valid at the top height,
    has the store reorganize, removes the fork's blocks from the pool, prunes
    the pool at the top height, adds the outgoing blocks to the pool,
    notifies the subscribers and only then answers [success]. *)
Theorem sufficient_work_commits (env : collaborators) (this : organizer)
    (f : fork) (handler : result_handler) (threshold : Z) (t : block)
    (outgoing : list block) :
  stopped this = false ->
  get_fork_difficulty env (difficulty f) (wrap_size_t (Fork.height f + 1)) =
    Some threshold ->
  threshold < difficulty f ->
  top f = Some t ->
  reorganize env f (flush_reorganizations_ this) = (success, outgoing) ->
  handle_connect env this success f handler =
  chain_get_fork_difficulty (difficulty f) (wrap_size_t (Fork.height f + 1)) ::
  set_top_validation t (top_height f) success ::
  chain_reorganize f (flush_reorganizations_ this) ::
  pool_remove (blocks f) ::
  pool_prune (top_height f) ::
  pool_add_list outgoing ::
  subscriber_invoke success (Fork.height f) (blocks f) outgoing ::
  handler success.
Proof.
  intros Hs Hq Hlt Ht Hr. unfold handle_connect. rewrite Hs. cbn [is_error].
  rewrite Hq. destruct (Z.leb_spec (difficulty f) threshold); [lia |].
  rewrite Ht, Hr. reflexivity.
Qed.

Lemma sufficient_work_commits_sample :
  replies (handle_connect Sample.more_work Sample.started success Sample.anchored
                          replying) = [success].
Proof.
  rewrite (sufficient_work_commits Sample.more_work Sample.started Sample.anchored
             replying 0 Sample.block0 [Sample.heavy0]).
  - reflexivity.
  - reflexivity.
  - reflexivity.
  - vm_compute. reflexivity.
  - reflexivity.
  - reflexivity.
Defined.

(** X20: when the store fails, the block pool and the subscribers are left
    alone. If it cannot report the competing work, [handle_connect] answers
    [operation_failed] at once; if the reorganization itself fails, the
    failure is logged as fatal and the store's code is passed on, with no
    pool update and no notification. *)
Theorem store_failure_touches_nothing (env : collaborators) (this : organizer)
    (f : fork) :
  stopped this = false ->
  (get_fork_difficulty env (difficulty f) (wrap_size_t (Fork.height f + 1)) = None ->
     handle_connect env this success f replying =
     [chain_get_fork_difficulty (difficulty f) (wrap_size_t (Fork.height f + 1));
      reply operation_failed]) /\
  (forall threshold t ec outgoing,
     get_fork_difficulty env (difficulty f) (wrap_size_t (Fork.height f + 1)) =
       Some threshold ->
     threshold < difficulty f ->
     top f = Some t ->
     reorganize env f (flush_reorganizations_ this) = (ec, outgoing) ->
     is_error ec = true ->
     handle_connect env this success f replying =
     [chain_get_fork_difficulty (difficulty f) (wrap_size_t (Fork.height f + 1));
      set_top_validation t (top_height f) success;
      chain_reorganize f (flush_reorganizations_ this);
      log_fatal ec; reply ec] /\
     existsb Shape.is_pool_update
             (handle_connect env this success f replying) = false /\
     existsb Shape.is_notification
             (handle_connect env this success f replying) = false).
Proof.
  intros Hs. split.
  - intros Hq. unfold handle_connect. rewrite Hs. cbn [is_error]. rewrite Hq.
    reflexivity.
  - intros threshold t ec outgoing Hq Hlt Ht Hr He.
    assert (E : handle_connect env this success f replying =
                [chain_get_fork_difficulty (difficulty f)
                                           (wrap_size_t (Fork.height f + 1));
                 set_top_validation t (top_height f) success;
                 chain_reorganize f (flush_reorganizations_ this);
                 log_fatal ec; reply ec]).
    { unfold handle_connect, handle_reorganized. rewrite Hs. cbn [is_error].
      rewrite Hq. destruct (Z.leb_spec (difficulty f) threshold); [lia |].
      rewrite Ht, Hr, He. reflexivity. }
    rewrite E. repeat split.
Qed.

Lemma store_failure_touches_nothing_sample :
  handle_connect Sample.rejecting Sample.started success Sample.anchored replying =
    [chain_get_fork_difficulty 4295032833 101; reply operation_failed] /\
  replies (handle_connect Sample.failing_store Sample.started success
                          Sample.anchored replying) = [other_error 5].
Proof.
  destruct (store_failure_touches_nothing Sample.rejecting Sample.started
                                          Sample.anchored) as (Hquery & _);
    [reflexivity |].
  destruct (store_failure_touches_nothing Sample.failing_store Sample.started
                                          Sample.anchored) as (_ & Hwrite);
    [reflexivity |].
  split.
  - apply Hquery. reflexivity.
  - destruct (Hwrite 0 Sample.block0 (other_error 5) []) as (E & _).
    + reflexivity.
    + vm_compute. reflexivity.
    + reflexivity.
    + reflexivity.
    + reflexivity.
    + rewrite E. reflexivity.
Defined.

(** X21: the life cycle. [start] clears the stopped flag, so that [organize]
    goes on to the context-free check; [stop] sets it again, so that
    [organize] answers [service_stopped], and always tells the subscribers
    [service_stopped]. The store's flush lock is taken by [start] and
    released by [stop] exactly when reorganizations do not flush by
    themselves, and then their results are the store's; otherwise both
    return true. Neither changes the flush setting. *)
Theorem start_stop_cycle (env : collaborators) (this : organizer) (b : block)
    (handler : result_handler) :
  organize env (fst (fst (stop env (fst (fst (start env this)))))) b handler =
    handler service_stopped /\
  hd_error (organize env (fst (fst (start env (fst (fst (stop env this)))))) b
                     handler) = Some (validator_check b) /\
  In (subscriber_invoke service_stopped 0 [] []) (snd (fst (stop env this))) /\
  flush_reorganizations_ (fst (fst (start env this))) = flush_reorganizations_ this /\
  flush_reorganizations_ (fst (fst (stop env this))) = flush_reorganizations_ this /\
  (flush_reorganizations_ this = true ->
     snd (start env this) = true /\ snd (stop env this) = true /\
     ~ In chain_begin_writes (snd (fst (start env this))) /\
     ~ In chain_end_writes (snd (fst (stop env this)))) /\
  (flush_reorganizations_ this = false ->
     snd (start env this) = begin_writes env /\
     snd (stop env this) = end_writes env /\
     In chain_begin_writes (snd (fst (start env this))) /\
     In chain_end_writes (snd (fst (stop env this)))).
Proof.
  unfold start, stop, organize.
  destruct (flush_reorganizations_ this) eqn:Hf; cbn.
  - repeat split; auto; try discriminate.
    + intros [E | []]; discriminate.
    + intros [E | [E | [E | []]]]; discriminate.
  - repeat split; auto 10; discriminate.
Qed.

(** X22: the size of the priority pool. For a configured count that is a
    [uint32_t], [cores] is at least 1 and at most the hardware concurrency
    (taken as 1 when the platform reports 0), is that hardware number when 0
    is configured, and never exceeds a nonzero configured count. *)
Theorem cores_bounds (hardware_concurrency : Z) (s : settings) :
  0 <= Organizer.cores s ->
  1 <= Threads.cores hardware_concurrency s <= Z.max hardware_concurrency 1 /\
  (Organizer.cores s = 0 ->
     Threads.cores hardware_concurrency s = Z.max hardware_concurrency 1) /\
  (Organizer.cores s <> 0 ->
     Threads.cores hardware_concurrency s <= Organizer.cores s).
Proof.
  intros H. unfold Threads.cores.
  destruct (Z.eqb_spec (Organizer.cores s) 0) as [E | E]; lia.
Qed.

Lemma cores_bounds_sample :
  Threads.cores 0 Sample.default_settings = 1 /\
  1 <= Threads.cores 8 Sample.default_settings <= 8.
Proof.
  destruct (cores_bounds 0 Sample.default_settings) as (_ & H0 & _);
    [vm_compute; discriminate |].
  destruct (cores_bounds 8 Sample.default_settings) as (H8 & _);
    [vm_compute; discriminate |].
  split; [apply H0; reflexivity | exact H8].
Defined.

(** X23: what [set_fork_height] can do. It asks the store for the height of
    the fork's hash and nothing else. It returns false, leaving the fork as
    it is, exactly when the store does not know that hash; it throws, always
    the overflow error, exactly when the height plus the size does not fit
    [size_t]; and when it returns true the fork has the same blocks, the
    store's height as its parent height, and a representable height at every
    one of its indexes. *)
Theorem set_fork_height_outcomes (env : collaborators) (f : fork) :
  fst (set_fork_height env f) = [chain_get_height (Fork.hash f)] /\
  (forall f', snd (set_fork_height env f) = Returns (false, f') ->
     f' = f /\ get_height env (Fork.hash f) = None) /\
  (forall e, snd (set_fork_height env f) = Throws e ->
     e = overflow_error /\
     exists h, get_height env (Fork.hash f) = Some h /\
               max_size_t < h + size f) /\
  (forall f', snd (set_fork_height env f) = Returns (true, f') ->
     blocks f' = blocks f /\
     Fork.hash f' = Fork.hash f /\
     get_height env (Fork.hash f) = Some (Fork.height f') /\
     Fork.height f' + size f' <= max_size_t /\
     forall i, 0 <= i < size f' ->
       height_at f' i = Returns (Fork.height f' + i + 1) /\
       exists b, block_at f' i = Some b).
Proof.
  unfold set_fork_height. cbn [fst snd]. split; [reflexivity |].
  destruct (get_height env (Fork.hash f)) as [h |].
  - unfold bind, safe_add.
    destruct (Z.gtb_spec h (max_size_t - size f)) as [Hover | Hfit].
    + split; [discriminate |]. split; [| discriminate].
      intros e [= <-]. split; [reflexivity |]. exists h. split; [reflexivity | lia].
    + split; [discriminate |]. split; [discriminate |].
      intros f' [= <-].
      assert (Hsize : size (set_height f h) = size f) by reflexivity.
      assert (Hheight : Fork.height (set_height f h) = h) by reflexivity.
      split; [reflexivity |]. split; [reflexivity |].
      split; [reflexivity |]. rewrite Hsize, Hheight. split; [lia |].
      intros i Hi. split.
      * apply height_at_fits. cbn [set_height height_]. lia.
      * apply block_at_inside. rewrite Hsize. lia.
  - split; [| split; discriminate].
    intros f' [= <-]. split; reflexivity.
Qed.

Lemma set_fork_height_outcomes_sample :
  height_at Sample.anchored 0 = Returns 101.
Proof.
  destruct (set_fork_height_outcomes Sample.more_work
              (snd (push_front Fork.new Sample.block0)))
    as (_ & _ & _ & H).
  destruct (H Sample.anchored) as (_ & _ & _ & _ & Hheights); [reflexivity |].
  destruct (Hheights 0) as (Hh & _); [vm_compute; split; congruence |].
  exact Hh.
Defined.

Lemma top_none_is_empty (f : fork) : top f = None -> blocks_ f = [].
Proof.
  unfold top, empty. destruct (blocks_ f) as [| b bs]; [reflexivity |].
  destruct (back_nonempty b bs) as [t Ht]. rewrite Ht. discriminate.
Qed.

(** X24: [handle_connect] reads through the top block's pointer only when
    there is a top block. Against a store whose thresholds are unsigned, an
    empty fork has difficulty 0 and is answered [insufficient_work] (or an
    earlier code) before the top is dereferenced. *)
Theorem handle_connect_has_top (env : collaborators) (this : organizer)
    (ec : code) (f : fork) :
  (forall maximum first_height threshold,
     get_fork_difficulty env maximum first_height = Some threshold ->
     0 <= threshold) ->
  ~ In null_dereference (handle_connect env this ec f replying) /\
  (empty f = true -> stopped this = false -> is_error ec = false ->
   forall threshold,
     get_fork_difficulty env (difficulty f) (wrap_size_t (Fork.height f + 1)) =
       Some threshold ->
     handle_connect env this ec f replying =
     [chain_get_fork_difficulty 0 (wrap_size_t (Fork.height f + 1));
      pool_add None; reply insufficient_work]).
Proof.
  intros Hunsigned. split.
  - unfold handle_connect, handle_reorganized, notify_reorganize, replying.
    destruct (stopped this); [intros [H | []]; discriminate |].
    destruct (is_error ec); [intros [H | []]; discriminate |].
    destruct (get_fork_difficulty env (difficulty f)
                                  (wrap_size_t (Fork.height f + 1)))
      as [threshold |] eqn:Hq; [| intros [H | [H | []]]; discriminate].
    destruct (Z.leb_spec (difficulty f) threshold) as [Hle | Hgt];
      [intros [H | [H | [H | []]]]; discriminate |].
    destruct (top f) as [t |] eqn:Ht.
    + destruct (reorganize env f (flush_reorganizations_ this)) as [ec' outgoing].
      destruct (is_error ec'); cbn; intros Hin;
        repeat (destruct Hin as [Hin | Hin]; [discriminate |]); exact Hin.
    + apply top_none_is_empty in Ht. apply Hunsigned in Hq.
      unfold difficulty in Hgt. rewrite Ht in Hgt. cbn in Hgt. lia.
  - intros He Hs Hec threshold Hq.
    assert (Hblocks : blocks_ f = []).
    { unfold empty in He. destruct (blocks_ f); [reflexivity | discriminate]. }
    assert (Hd : difficulty f = 0) by (unfold difficulty; rewrite Hblocks; reflexivity).
    assert (Ht : top f = None) by (unfold top; rewrite He; reflexivity).
    unfold handle_connect, replying. rewrite Hs, Hec, Hq, Ht, Hd.
    rewrite Hd in Hq. apply Hunsigned in Hq.
    destruct (Z.leb_spec 0 threshold); [reflexivity | lia].
Qed.

Lemma handle_connect_has_top_sample :
  handle_connect Sample.more_work Sample.started success Fork.new replying =
  [chain_get_fork_difficulty 0 1; pool_add None; reply insufficient_work].
Proof.
  destruct (handle_connect_has_top Sample.more_work Sample.started success Fork.new)
    as (_ & H).
  - intros maximum first_height threshold [= <-]. lia.
  - apply (H eq_refl eq_refl eq_refl 0). reflexivity.
Defined.
